(** * Trust and routing core of the packet forwarder

    A shallow embedding of [gateway/gateway.go] and [forwarder/utils.go]:
    gateway identity derivation, the two gateway trust policies, the RPC dial
    and the two router table sources (registry contract and HTTP snapshot),
    followed by the properties established about them. *)

From stdpp Require Import base option list gmap strings vector.
From Stdlib Require Import ZArith Lia.

Open Scope Z_scope.

(** ** Bytes and fixed-size arrays

    A Go [byte] is an 8-bit [Z]; a slice []byte and an array [n]byte are lists
    of them.  The array types of the external libraries that the code relies
    on for a length ([sha256.Sum256] returns a [32]byte) are vectors. *)

Abbreviation byte := Z (only parsing).

(** [byte(v)]: conversion of an unsigned integer to a byte keeps the low
    eight bits. *)
Definition to_byte (v : Z) : byte := Z.land v 255.

(** Go's [copy(dst[:], src)] into a freshly zeroed [n]byte: the first
    [min n (len src)] bytes of [src], the rest stays zero. *)
Definition copy_bytes (n : nat) (src : list byte) : list byte :=
  take n src ++ replicate (n - length src) 0.

(** [lorawan.EUI64] is a [8]byte, [common.Address] a [20]byte. *)
Abbreviation EUI64 := (list Z) (only parsing).
Abbreviation Address := (list Z) (only parsing).

(** [common.Address{}] *)
Definition zero_address : Address := replicate 20 0.

(** Go's [error] values, by the message they carry. *)
Abbreviation error := string (only parsing).

(** * gateway/gateway.go *)
Module gateway.

(** [ecdsa.PublicKey] and [ecdsa.PrivateKey] of Go's standard library (the
    curve is fixed and left out). *)
Record PublicKey := { X : Z; Y : Z }.
Record PrivateKey := { PrivateKey_PublicKey : PublicKey; D : Z }.

Record Gateway := {
  LocalGatewayID : EUI64;
  NetworkGatewayID : EUI64;
  Gateway_PrivateKey : option PrivateKey;
  Gateway_PublicKey : option PublicKey;
  PublicKeyBytes : list byte;
  CompressedPublicKeyBytes : list byte;
  Owner : Address
}.

(** [Gateway.ID]: the identifier the gateway is registered under in the
    gateway registry. *)
Definition ID (gw : Gateway) : list byte :=
  copy_bytes 32 (CompressedPublicKeyBytes gw).

(** [Gateway.CompressedPubKeyBytes] *)
Definition CompressedPubKeyBytes (gw : Gateway) : list byte :=
  [2] ++ CompressedPublicKeyBytes gw.

(** Modelled from the spec: [utils.BytesToGatewayID], of the repository's
    [utils] package, whose source is not available.  It turns the eight bytes
    it is given into a gateway identifier; its error (a slice of another
    length) is the second component. *)
Definition BytesToGatewayID (id : list byte) : EUI64 * option error :=
  (copy_bytes 8 id,
   if decide (length id = 8%nat) then None else Some "invalid gateway id").

Section Crypto.
(** The cryptographic primitives are those of [crypto/sha256] and of
    go-ethereum's [crypto] package: [sha256.Sum256] returns a [32]byte,
    [crypto.CompressPubkey] the 33 byte compressed encoding (parity byte
    first), [crypto.FromECDSAPub] the 65 byte uncompressed encoding. *)
Variable sha256_Sum256 : list byte → vec byte 32.
Variable CompressPubkey : PublicKey → vec byte 33.
Variable FromECDSAPub : PublicKey → vec byte 65.

Definition CalculateCompressedPublicKeyBytes (pub : PublicKey) : list byte :=
  drop 1 (vec_to_list (CompressPubkey pub)).

Definition CalculatePublicKeyBytes (pub : PublicKey) : list byte :=
  vec_to_list (FromECDSAPub pub).

Definition CalculateNetworkGatewayID (priv : PrivateKey) : EUI64 :=
  let pub := PrivateKey_PublicKey priv in
  let pubBytes := CalculateCompressedPublicKeyBytes pub in
  let h := sha256_Sum256 pubBytes in
  let '(gatewayID, _) := BytesToGatewayID (take 8 (vec_to_list h)) in
  gatewayID.

Definition NewGateway (localGatewayID : EUI64) (priv : PrivateKey)
  : option Gateway * option error :=
  (Some {| LocalGatewayID := localGatewayID;
           NetworkGatewayID := CalculateNetworkGatewayID priv;
           Gateway_PrivateKey := Some priv;
           Gateway_PublicKey := Some (PrivateKey_PublicKey priv);
           CompressedPublicKeyBytes :=
             CalculateCompressedPublicKeyBytes (PrivateKey_PublicKey priv);
           PublicKeyBytes :=
             CalculatePublicKeyBytes (PrivateKey_PublicKey priv);
           Owner := zero_address |}, None).

(** [GeneratePrivateKey] draws a fresh key from the system's randomness, or
    fails; [generated] is what it returned for this call. *)
Definition GenerateNewGateway (generated : PrivateKey + error)
    (localID : EUI64) : option Gateway * option error :=
  match generated with
  | inr err => (None, Some err)
  | inl priv =>
      (Some {| LocalGatewayID := localID;
               NetworkGatewayID := CalculateNetworkGatewayID priv;
               Gateway_PrivateKey := Some priv;
               Gateway_PublicKey := Some (PrivateKey_PublicKey priv);
               CompressedPublicKeyBytes :=
                 CalculateCompressedPublicKeyBytes (PrivateKey_PublicKey priv);
               PublicKeyBytes := [];
               Owner := zero_address |}, None)
  end.

End Crypto.

End gateway.

(** * forwarder/utils.go *)
Module forwarder.
Import gateway.

(** The part of [Config] that this file reads, flattened:
    [cfg.BlockChain.Polygon], [cfg.Forwarder.Gateways] and
    [cfg.Forwarder.Routers].  A nil pointer is [None]; the [uint64] fields and
    the [time.Duration] values (nanoseconds) are integers. *)
Record Config := {
  Polygon_Endpoint : string;
  Polygon_ChainID : Z;
  Polygon_Confirmations : Z;
  Gateways_RegistryAddress : option Address;
  OnChain_RegistryContract : Address;
  OnChain_UpdateInterval : option Z;
  ThingsIXApi_Endpoint : option string;
  ThingsIXApi_UpdateInterval : option Z
}.

(** ** Integers of the Go side *)

(** Two's complement wrap-around of [int64] arithmetic. *)
Definition wrap64 (z : Z) : Z := (z + 2 ^ 63) mod 2 ^ 64 - 2 ^ 63.

(** [Uint64] of a [big.Int]: the low 64 bits of the magnitude. *)
Definition big_Uint64 (x : Z) : Z := Z.land (Z.abs x) (2 ^ 64 - 1).

(** [Int64] of a [big.Int]: the low 64 bits of the magnitude as an [int64], with
    the sign of [x]. *)
Definition big_Int64 (x : Z) : Z := wrap64 (Z.sgn x * big_Uint64 x).

(** [uint32(v)] of a [uint64]. *)
Definition to_uint32 (v : Z) : Z := Z.land v (2 ^ 32 - 1).


(** [binary.BigEndian.PutUint32] and [binary.LittleEndian.PutUint32] into a
    [4]byte. *)
Definition BigEndian_PutUint32 (v : Z) : list byte :=
  [to_byte (Z.shiftr v 24); to_byte (Z.shiftr v 16);
   to_byte (Z.shiftr v 8); to_byte v].

Definition LittleEndian_PutUint32 (v : Z) : list byte :=
  [to_byte v; to_byte (Z.shiftr v 8);
   to_byte (Z.shiftr v 16); to_byte (Z.shiftr v 24)].

(** ** Hexadecimal decoding ([encoding/hex]) *)

Inductive HexError :=
| ErrLength
| InvalidByteError (c : Ascii.ascii).

(** The table [reverseHexTable]: the value of a hexadecimal digit, of either
    case. *)
Definition fromHexChar (c : Ascii.ascii) : option Z :=
  let n := Z.of_N (Ascii.N_of_ascii c) in
  if (48 <=? n) && (n <=? 57) then Some (n - 48)
  else if (97 <=? n) && (n <=? 102) then Some (n - 97 + 10)
  else if (65 <=? n) && (n <=? 70) then Some (n - 65 + 10)
  else None.

(** [hex.DecodeString]: pairs of digits from the left; the first bad
    character is reported, and a lone last digit is a length error. *)
Fixpoint hex_DecodeString (s : string) : list byte + HexError :=
  match s with
  | EmptyString => inl []
  | String p EmptyString =>
      match fromHexChar p with
      | None => inr (InvalidByteError p)
      | Some _ => inr ErrLength
      end
  | String p (String q rest) =>
      match fromHexChar p, fromHexChar q with
      | None, _ => inr (InvalidByteError p)
      | Some _, None => inr (InvalidByteError q)
      | Some a, Some b =>
          match hex_DecodeString rest with
          | inl bytes => inl (Z.lor (Z.shiftl a 4) b :: bytes)
          | inr e => inr e
          end
      end
  end.

(** ** Routers *)

(** [lorawan.NetID] is a [3]byte. *)
Abbreviation NetID := (list Z) (only parsing).

(** The accounting collaborator handed to every router; only its identity
    matters here. *)
Inductive Accounter := accounter_ref (n : nat).

(** Modelled from the spec: the [Router] type and its constructor [NewRouter]
    of the forwarder package, whose source is not available.  A router has a
    32-byte registry identifier, the endpoint of the backend, the NetIDs it is
    authoritative for and its owner; the constructor stores what it is
    given. *)
Record Router := {
  Router_ID : list byte;
  Router_Endpoint : string;
  Router_Default : bool;
  Router_NetIDs : list NetID;
  Router_Owner : Address;
  Router_accounter : Accounter
}.

(** Modelled from the spec: [NewRouter], see [Router]. *)
Definition NewRouter (id : list byte) (endpoint : string) (default : bool)
    (netids : list NetID) (owner : Address) (accounter : Accounter) : Router :=
  {| Router_ID := id; Router_Endpoint := endpoint; Router_Default := default;
     Router_NetIDs := netids; Router_Owner := owner;
     Router_accounter := accounter |}.

(** A []*Router: a slot is a pointer to a router, or nil. *)
Abbreviation Routers := (list (option Router)) (only parsing).

(** ** Gateway trust tables *)

(** Modelled from the spec: the gateway inventory ([gateway.Store], whose
    source is not available) supplies a list of gateway records.  The records
    live in a heap, the list [gateways] of the state below; the pointer that
    [store.Gateways()] returns for the i-th gateway is its index [i]. *)
Definition Store_Gateways (store : list Gateway) : list nat :=
  seq 0 (length store).

(** What the registry contract reports for a gateway id. *)
Record RegistryGateway := {
  rgw_Owner : Address;
  rgw_AntennaGain : Z;
  rgw_FrequencyPlan : Z;
  rgw_Location : Z;
  rgw_Altitude : Z
}.

(** The RPC node as [acceptOnlyOnboardedAndRegistryGateways] meets it:
    whether [ethclient.Dial] succeeds, whether the registry bindings can be
    instantiated, and what the [gateways] call of the registry returns. *)
Record GatewayRegistryNode := {
  ethclient_Dial : bool;
  NewGatewayRegistry : bool;
  registry_Gateways : list byte → RegistryGateway + error
}.

(** A call returns, or panics (a nil pointer is dereferenced). *)
Inductive outcome (A : Type) :=
| Returned (a : A)
| Panicked.
Arguments Returned {A} a.
Arguments Panicked {A}.

(** The gateway objects and the two maps under construction; the maps hold
    pointers to the gateways. *)
Record TrustState := {
  gateways : list Gateway;
  trustedGatewaysByLocalID : gmap (list Z) nat;
  trustedGatewaysByNetworkID : gmap (list Z) nat
}.

(** [for _, gateway := range ptrs { body }] *)
Fixpoint range_gateways (body : TrustState → nat → outcome TrustState)
    (ptrs : list nat) (st : TrustState) : outcome TrustState :=
  match ptrs with
  | [] => Returned st
  | p :: rest =>
      match body st p with
      | Returned st' => range_gateways body rest st'
      | Panicked => Panicked
      end
  end.

(** [gateway.Owner = owner], through the pointer. *)
Definition set_Owner (gw : Gateway) (owner : Address) : Gateway :=
  {| LocalGatewayID := LocalGatewayID gw;
     NetworkGatewayID := NetworkGatewayID gw;
     Gateway_PrivateKey := Gateway_PrivateKey gw;
     Gateway_PublicKey := Gateway_PublicKey gw;
     PublicKeyBytes := PublicKeyBytes gw;
     CompressedPublicKeyBytes := CompressedPublicKeyBytes gw;
     Owner := owner |}.

(** Body of the loop of [acceptOnlyOnboardedAndRegistryGateways].  The log
    lines are left out. *)
Definition registry_body (node : GatewayRegistryNode) (st : TrustState)
    (p : nat) : outcome TrustState :=
  match gateways st !! p with
  | None => Panicked
  | Some gw =>
      match registry_Gateways node (ID gw) with
      | inr _ => Returned st
      | inl rgw =>
          if decide (rgw_AntennaGain rgw ≠ 0) then
            let gw' := set_Owner gw (rgw_Owner rgw) in
            Returned
              {| gateways := <[p := gw']> (gateways st);
                 trustedGatewaysByLocalID :=
                   <[LocalGatewayID gw' := p]> (trustedGatewaysByLocalID st);
                 trustedGatewaysByNetworkID :=
                   <[NetworkGatewayID gw' := p]> (trustedGatewaysByNetworkID st) |}
          else Returned st
      end
  end.

Definition empty_tables (store : list Gateway) : TrustState :=
  {| gateways := store;
     trustedGatewaysByLocalID := ∅;
     trustedGatewaysByNetworkID := ∅ |}.

(** A failed dial is only logged and leaves a nil client: the deferred
    [client.Close()], or before it the first registry call, dereferences it,
    whichever way the function is left. *)
Definition acceptOnlyOnboardedAndRegistryGateways (node : GatewayRegistryNode)
    (store : list Gateway) : outcome (TrustState * option error) :=
  if negb (ethclient_Dial node) then Panicked
  else if negb (NewGatewayRegistry node) then
    Returned (empty_tables store,
              Some "unable to instantiate gateway registry bindings")
  else
    match range_gateways (registry_body node) (Store_Gateways store)
            (empty_tables store) with
    | Returned st => Returned (st, None)
    | Panicked => Panicked
    end.

(** Body of the loop of the open policy. *)
Definition accept_all_body (st : TrustState) (p : nat) : outcome TrustState :=
  match gateways st !! p with
  | None => Panicked
  | Some gw =>
      Returned
        {| gateways := gateways st;
           trustedGatewaysByLocalID :=
             <[LocalGatewayID gw := p]> (trustedGatewaysByLocalID st);
           trustedGatewaysByNetworkID :=
             <[NetworkGatewayID gw := p]> (trustedGatewaysByNetworkID st) |}
  end.

Definition onboardedAndRegisteredGateways (cfg : Config)
    (node : GatewayRegistryNode) (store : list Gateway)
    : outcome (TrustState * option error) :=
  let acceptOnlyRegisteredGateways :=
    bool_decide (Gateways_RegistryAddress cfg ≠ None) in
  if negb acceptOnlyRegisteredGateways then
    match range_gateways accept_all_body (Store_Gateways store)
            (empty_tables store) with
    | Returned st => Returned (st, None)
    | Panicked => Panicked
    end
  else acceptOnlyOnboardedAndRegistryGateways node store.


(** ** Statements about the trust tables

    The predicates below are what the results on the trust tables are stated
    with; [verdict_body] is the shape that the two loop bodies share. *)

(** The decision of the registry policy on a gateway: the gateway with the
    owner that the registry reports when it is trusted, nothing when its
    lookup fails or its antenna gain is zero. *)
Definition registry_verdict (node : GatewayRegistryNode) (gw : Gateway)
    : option Gateway :=
  match registry_Gateways node (ID gw) with
  | inr _ => None
  | inl rgw =>
      if decide (rgw_AntennaGain rgw ≠ 0) then
        Some (set_Owner gw (rgw_Owner rgw))
      else None
  end.

Definition verdict_body (verdict : Gateway → option Gateway) (st : TrustState)
    (p : nat) : outcome TrustState :=
  match gateways st !! p with
  | None => Panicked
  | Some gw =>
      match verdict gw with
      | None => Returned st
      | Some gw' =>
          Returned
            {| gateways := <[p := gw']> (gateways st);
               trustedGatewaysByLocalID :=
                 <[LocalGatewayID gw' := p]> (trustedGatewaysByLocalID st);
               trustedGatewaysByNetworkID :=
                 <[NetworkGatewayID gw' := p]> (trustedGatewaysByNetworkID st) |}
      end
  end.

(** Gateway [p] is in both maps, under its local id and under its network
    id. *)
Definition in_both_maps (st : TrustState) (p : nat) : Prop :=
  ∃ gw, gateways st !! p = Some gw
        ∧ trustedGatewaysByLocalID st !! LocalGatewayID gw = Some p
        ∧ trustedGatewaysByNetworkID st !! NetworkGatewayID gw = Some p.

(** Gateway [p] is in neither map. *)
Definition in_no_map (st : TrustState) (p : nat) : Prop :=
  (∀ k, trustedGatewaysByLocalID st !! k ≠ Some p)
  ∧ (∀ k, trustedGatewaysByNetworkID st !! k ≠ Some p).

(** The maps hold every gateway of the inventory and nothing else. *)
Definition holds_exactly_the_inventory (store : list Gateway)
    (st : TrustState) : Prop :=
  (∀ p, p < length store → in_both_maps st p)%nat
  ∧ (∀ k p, trustedGatewaysByLocalID st !! k = Some p →
       ∃ gw, store !! p = Some gw ∧ LocalGatewayID gw = k)
  ∧ (∀ k p, trustedGatewaysByNetworkID st !! k = Some p →
       ∃ gw, store !! p = Some gw ∧ NetworkGatewayID gw = k).

(** The two maps agree: a gateway found in one is in both. *)
Definition tables_agree (st : TrustState) : Prop :=
  (∀ k p, trustedGatewaysByLocalID st !! k = Some p → in_both_maps st p)
  ∧ (∀ k p, trustedGatewaysByNetworkID st !! k = Some p → in_both_maps st p).

(** A gateway that is in neither map is as it was in the inventory. *)
Definition absent_untouched (store : list Gateway) (st : TrustState) : Prop :=
  ∀ p, in_no_map st p → gateways st !! p = store !! p.

(** No two gateways of the inventory share a local id, or a network id. *)
Definition distinct_ids (store : list Gateway) : Prop :=
  NoDup (LocalGatewayID <$> store) ∧ NoDup (NetworkGatewayID <$> store).

(** The state of a loop with decision [verdict] after the first [n] gateways
    of [store]. *)
Definition visited (verdict : Gateway → option Gateway) (store : list Gateway)
    (n : nat) (st : TrustState) : Prop :=
  length (gateways st) = length store
  ∧ (∀ q, gateways st !! q
          = if decide (q < n)%nat
            then (λ gw, default gw (verdict gw)) <$> store !! q
            else store !! q)
  ∧ (∀ k p, trustedGatewaysByLocalID st !! k = Some p →
       (p < n)%nat ∧ ∃ gw gw', store !! p = Some gw ∧ verdict gw = Some gw'
                               ∧ LocalGatewayID gw = k)
  ∧ (∀ k p, trustedGatewaysByNetworkID st !! k = Some p →
       (p < n)%nat ∧ ∃ gw gw', store !! p = Some gw ∧ verdict gw = Some gw'
                               ∧ NetworkGatewayID gw = k)
  ∧ (NoDup (LocalGatewayID <$> store) →
     ∀ p gw gw', (p < n)%nat → store !! p = Some gw → verdict gw = Some gw' →
       trustedGatewaysByLocalID st !! LocalGatewayID gw = Some p)
  ∧ (NoDup (NetworkGatewayID <$> store) →
     ∀ p gw gw', (p < n)%nat → store !! p = Some gw → verdict gw = Some gw' →
       trustedGatewaysByNetworkID st !! NetworkGatewayID gw = Some p).

(** ** The RPC node *)

(** An entry of the router registry, as [RoutersPaged] returns it; the
    network ids are [big.Int]s. *)
Record RegistryRouter := {
  rr_Id : list byte;
  rr_Endpoint : string;
  rr_Owner : Address;
  rr_Networks : list Z
}.

(** What the RPC node answers: whether it can be dialled, its chain id, the
    number of its head block, whether the router registry bindings can be
    instantiated, and the two reads of the router registry at a block. *)
Record RPCNode := {
  DialContext : bool;
  node_ChainID : Z + error;
  HeaderByNumber : Z + error;
  NewRouterRegistryCaller : bool;
  RouterCount : Z → Z + error;
  RoutersPaged : Z → Z → Z → list RegistryRouter + error
}.

Inductive Client := client_of (endpoint : string).

(** [dialRPCNode], threading the number of open connections: a successful
    dial opens one, [client.Close()] closes one. *)
Definition dialRPCNode (cfg : Config) (node : RPCNode) (open : nat)
    : (Client + error) * nat :=
  if negb (DialContext node) then
    (inr "unable to dial RPC node", open)
  else
    let client := client_of (Polygon_Endpoint cfg) in
    let open := S open in
    match node_ChainID node with
    | inr _ =>
        (inr "unable to determine if dial RPC node on the correct network",
         Nat.pred open)
    | inl chainID =>
        if decide (big_Uint64 chainID ≠ Polygon_ChainID cfg) then
          (inr "RPC node connected to wrong chain", open)
        else (inl client, open)
    end.

(** ** Router table from the registry contract *)

(** The NetID of a registry network id: [uint32(id.Uint64())] written big
    endian into a [4]byte, of which bytes 1, 2 and 3 are kept. *)
Definition chain_NetID (id : Z) : NetID :=
  let netid := BigEndian_PutUint32 (to_uint32 (big_Uint64 id)) in
  [netid !!! 1%nat; netid !!! 2%nat; netid !!! 3%nat].

(** One fetched entry becomes one router; every slot of [netids] is
    assigned, in order. *)
Definition chain_Router (accounter : Accounter) (r : RegistryRouter) : Router :=
  let netids := map chain_NetID (rr_Networks r) in
  NewRouter (rr_Id r) (rr_Endpoint r) false netids (rr_Owner r) accounter.

Definition pageSize : Z := 50.

(** [for i := int64(0); i*pageSize < routerCount.Int64(); i += pageSize],
    from the loop variable [i] and the routers gathered so far.  [None]: the
    loop is still running when [fuel] iterations are done. *)
Fixpoint fetch_pages (fuel : nat) (node : RPCNode) (callOpts : Z)
    (routerCount : Z) (accounter : Accounter) (i : Z) (routers : Routers)
    : option (Routers * option error) :=
  match fuel with
  | O => None
  | S fuel =>
      if wrap64 (i * pageSize) <? big_Int64 routerCount then
        match RoutersPaged node callOpts i (wrap64 (i + pageSize)) with
        | inr _ =>
            Some ([], Some "unable to retrieve routers from registry")
        | inl fetchedRouters =>
            fetch_pages fuel node callOpts routerCount accounter
              (wrap64 (i + pageSize))
              (routers ++ map (λ r, Some (chain_Router accounter r))
                              fetchedRouters)
        end
      else Some (routers, None)
  end.

(** The update function that [fetchRoutersFromChain] returns.  The client
    is closed when the function is left, however it is left. *)
Definition fetchRoutersFromChain_update (cfg : Config) (accounter : Accounter)
    (node : RPCNode) (fuel : nat) (open : nat)
    : option (Routers * option error) * nat :=
  match dialRPCNode cfg node open with
  | (inr err, open) => (Some ([], Some err), open)
  | (inl client, open) =>
      let result :=
        match HeaderByNumber node with
        | inr _ => Some ([], Some "unable to determine chain head")
        | inl head =>
            if big_Uint64 head <? Polygon_Confirmations cfg then
              Some ([], None)
            else
              let confirmedBlock :=
                big_Uint64 head - Polygon_Confirmations cfg in
              let callOpts := confirmedBlock in
              if negb (NewRouterRegistryCaller node) then
                Some ([], Some "unable to instantiate router registry bindings")
              else
                match RouterCount node callOpts with
                | inr _ => Some ([], Some "unable to determine router count")
                | inl routerCount =>
                    fetch_pages fuel node callOpts routerCount accounter 0 []
                end
        end in
      (result, Nat.pred open)
  end.



(** The router registry contract lies outside the repository and is reached
    through [RouterCount] and [RoutersPaged] of the node.  The registry that
    the results on the paging loop range over exposes a list of router
    entries: the count is the length of the list, and the paged listing
    returns the entries from index [start] up to, and not including, index
    [end], cut at the end of the list. *)
Definition registry_RouterCount (entries : list RegistryRouter) : Z :=
  Z.of_nat (length entries).

Definition registry_RoutersPaged (entries : list RegistryRouter)
    (start end_ : Z) : list RegistryRouter :=
  take (Z.to_nat (end_ - start)) (drop (Z.to_nat start) entries).

(** A node of the expected chain whose head is at block [head] and whose
    registry holds [entries], at every block. *)
Definition serving (chainID head : Z) (entries : list RegistryRouter)
    : RPCNode :=
  {| DialContext := true;
     node_ChainID := inl chainID;
     HeaderByNumber := inl head;
     NewRouterRegistryCaller := true;
     RouterCount := λ _, inl (registry_RouterCount entries);
     RoutersPaged := λ _ start end_,
       inl (registry_RoutersPaged entries start end_) |}.

(** The pages that the loop requests of a registry of [n] entries: it goes
    on while 2500 times the number of pages fetched is below [n]. *)
Definition pages_fetched (n : nat) : nat := ((n + 2499) / 2500)%nat.

(** ** Router table from the HTTP snapshot *)

Record SnapshotRouter := {
  sr_Endpoint : string;
  sr_ID : string;
  sr_Owner : Address;
  sr_Networks : list Z
}.

Record Snapshot := {
  snapshot_BlockNumber : Z;
  snapshot_ChainID : Z;
  snapshot_Routers : list SnapshotRouter
}.

(** What [http.Get] and the JSON decoder produce. *)
Inductive HTTPResponse :=
| GetFailed (err : error)
| Body (decoded : Snapshot + error).

(** The NetID of a snapshot network id, a [uint32]: written little endian
    into a [4]byte, of which bytes 0, 1 and 2 are kept. *)
Definition snapshot_NetID (id : Z) : NetID :=
  let netid := LittleEndian_PutUint32 id in
  [netid !!! 0%nat; netid !!! 1%nat; netid !!! 2%nat].

(** [for i, r := range snapshot.Routers], from index [i] on, over the slice
    [routers] that was allocated with one slot per entry. *)
Fixpoint convert_snapshot (accounter : Accounter) (i : nat)
    (rs : list SnapshotRouter) (routers : Routers) : Routers :=
  match rs with
  | [] => routers
  | r :: rest =>
      match hex_DecodeString (sr_ID r) with
      | inr _ => convert_snapshot accounter (S i) rest routers
      | inl rID =>
          let id := copy_bytes 32 rID in
          let netids := map snapshot_NetID (sr_Networks r) in
          convert_snapshot accounter (S i) rest
            (<[i := Some (NewRouter id (sr_Endpoint r) false netids
                            (sr_Owner r) accounter)]> routers)
      end
  end.

(** What the loop above leaves in the slot of entry [r] of a slice of nil
    slots; the results about the loop are stated with it. *)
Definition snapshot_slot (accounter : Accounter) (r : SnapshotRouter)
    : option Router :=
  match hex_DecodeString (sr_ID r) with
  | inr _ => None
  | inl rID =>
      Some (NewRouter (copy_bytes 32 rID) (sr_Endpoint r) false
              (map snapshot_NetID (sr_Networks r)) (sr_Owner r) accounter)
  end.

(** The update function that [fetchRoutersFromThingsIXAPI] returns. *)
Definition fetchRoutersFromThingsIXAPI_update (cfg : Config)
    (accounter : Accounter) (resp : HTTPResponse) : Routers * option error :=
  match resp with
  | GetFailed err => ([], Some err)
  | Body (inr err) => ([], Some err)
  | Body (inl snapshot) =>
      if decide (snapshot_ChainID snapshot ≠ Polygon_ChainID cfg) then
        ([], Some "router snapshot from wrong chain")
      else
        let routers := replicate (length (snapshot_Routers snapshot)) None in
        (convert_snapshot accounter 0 (snapshot_Routers snapshot) routers,
         None)
  end.



(** ** Identity translation of frames *)

(** [GatewayIDBytesToLoraEUID]: the id bytes copied into a [lorawan.EUI64]. *)
Definition GatewayIDBytesToLoraEUID (id : list byte) : EUI64 :=
  copy_bytes 8 id.

(** [hex.EncodeToString], with the table ["0123456789abcdef"]: two digits
    per byte, the high nibble first. *)
Definition hextable : list Ascii.ascii :=
  String.list_ascii_of_string "0123456789abcdef".

Definition hexDigit (n : Z) : Ascii.ascii :=
  nth (Z.to_nat n) hextable (Ascii.ascii_of_nat 48).

Fixpoint hex_EncodeToString (src : list byte) : string :=
  match src with
  | [] => EmptyString
  | v :: rest =>
      String (hexDigit (Z.shiftr v 4))
        (String (hexDigit (Z.land v 15)) (hex_EncodeToString rest))
  end.

(** [lorawan.EUI64.String]: the hexadecimal encoding of the eight bytes. *)
Definition EUI64_String (e : EUI64) : string := hex_EncodeToString e.

(** The frames of the gateway API, as far as the translation reads them: the
    gateway id, and the remaining fields, of whatever type, which it does not
    look at.  The receive information of an uplink frame is behind a
    pointer. *)
Record UplinkRxInfo (R : Type) := {
  rx_GatewayId : string;
  rx_fields : R
}.
Arguments rx_GatewayId {R} _.
Arguments rx_fields {R} _.

Record UplinkFrame (F R : Type) := {
  RxInfo : option (UplinkRxInfo R);
  uf_fields : F
}.
Arguments RxInfo {F R} _.
Arguments uf_fields {F R} _.

Record DownlinkTxAck (F : Type) := {
  ack_GatewayId : string;
  ack_fields : F
}.
Arguments ack_GatewayId {F} _.
Arguments ack_fields {F} _.

Record DownlinkFrame (F : Type) := {
  df_GatewayId : string;
  df_fields : F
}.
Arguments df_GatewayId {F} _.
Arguments df_fields {F} _.

(** [localUplinkFrameToNetwork], on the gateway and the frame behind its two
    pointer arguments: [frame.RxInfo.GatewayId] is assigned through the
    [RxInfo] pointer, which is not checked. *)
Definition localUplinkFrameToNetwork {F R : Type} (gw : Gateway)
    (frame : UplinkFrame F R) : outcome (UplinkFrame F R * option error) :=
  match RxInfo frame with
  | None => Panicked
  | Some rx =>
      Returned
        ({| RxInfo := Some {| rx_GatewayId := EUI64_String (NetworkGatewayID gw);
                              rx_fields := rx_fields rx |};
            uf_fields := uf_fields frame |}, None)
  end.

(** [localDownlinkTxAckToNetwork] *)
Definition localDownlinkTxAckToNetwork {F : Type} (gw : Gateway)
    (txack : DownlinkTxAck F) : DownlinkTxAck F * option error :=
  ({| ack_GatewayId := EUI64_String (NetworkGatewayID gw);
      ack_fields := ack_fields txack |}, None).

(** [networkDownlinkFrameToLocal] *)
Definition networkDownlinkFrameToLocal {F : Type} (gw : Gateway)
    (frame : DownlinkFrame F) : DownlinkFrame F :=
  {| df_GatewayId := EUI64_String (LocalGatewayID gw);
     df_fields := df_fields frame |}.

(** A byte value. *)
Definition is_byte (b : Z) : Prop := 0 ≤ b < 256.

(** The last gateway of [store] that [verdict] trusts and whose id, read by
    [id_of], is [k], is gateway [q]. *)
Definition last_trusted (verdict : Gateway → option Gateway)
    (id_of : Gateway → list Z) (store : list Gateway) (k : list Z)
    (q : nat) : Prop :=
  (∃ gw gw', store !! q = Some gw ∧ verdict gw = Some gw' ∧ id_of gw = k)
  ∧ ∀ p gw gw', store !! p = Some gw → verdict gw = Some gw' → id_of gw = k →
      (p ≤ q)%nat.

(** Every gateway among the first [n] that [verdict] trusts has its ids in
    the maps, at itself or at a later gateway. *)
Definition entered (verdict : Gateway → option Gateway) (store : list Gateway)
    (n : nat) (st : TrustState) : Prop :=
  ∀ p gw gw', (p < n)%nat → store !! p = Some gw → verdict gw = Some gw' →
    (∃ q, trustedGatewaysByLocalID st !! LocalGatewayID gw = Some q
          ∧ (p ≤ q)%nat)
    ∧ (∃ q, trustedGatewaysByNetworkID st !! NetworkGatewayID gw = Some q
            ∧ (p ≤ q)%nat).

End forwarder.

(** * Sample inputs

    Concrete configurations, nodes, inventories and snapshots on which the
    definitions above are evaluated further down. *)
Module sample.
Import gateway forwarder.

(** A configuration for chain 137 with the open trust policy. *)
Definition cfg : Config :=
  {| Polygon_Endpoint := "https://rpc.example";
     Polygon_ChainID := 137;
     Polygon_Confirmations := 128;
     Gateways_RegistryAddress := None;
     OnChain_RegistryContract := replicate 20 1;
     OnChain_UpdateInterval := None;
     ThingsIXApi_Endpoint := Some "https://api.example/routers";
     ThingsIXApi_UpdateInterval := None |}.

(** The same with a gateway registry configured. *)
Definition cfg_registry : Config :=
  {| Polygon_Endpoint := "https://rpc.example";
     Polygon_ChainID := 137;
     Polygon_Confirmations := 128;
     Gateways_RegistryAddress := Some (replicate 20 7);
     OnChain_RegistryContract := replicate 20 1;
     OnChain_UpdateInterval := None;
     ThingsIXApi_Endpoint := Some "https://api.example/routers";
     ThingsIXApi_UpdateInterval := None |}.

Definition accounter : Accounter := accounter_ref 0.

(** A reachable node of chain 80001 with an empty registry. *)
Definition other_chain_node : RPCNode := serving 80001 1000 [].

Definition entry (id : string) (n : Z) : SnapshotRouter :=
  {| sr_Endpoint := "router.example:3200";
     sr_ID := id;
     sr_Owner := replicate 20 n;
     sr_Networks := [n] |}.

(** A snapshot of chain 137 with five entries; the id of the third one is
    not hexadecimal. *)
Definition snapshot_one_malformed : Snapshot :=
  {| snapshot_BlockNumber := 1000;
     snapshot_ChainID := 137;
     snapshot_Routers :=
       [entry "0a" 1; entry "0b" 2; entry "0xzz" 3; entry "0d" 4;
        entry "0e" 5] |}.

(** The same entries, declared for chain 80001. *)
Definition snapshot_other_chain : Snapshot :=
  {| snapshot_BlockNumber := 1000;
     snapshot_ChainID := 80001;
     snapshot_Routers := snapshot_Routers snapshot_one_malformed |}.

Definition registry_entry (n : nat) : RegistryRouter :=
  {| rr_Id := replicate 31 0 ++ [Z.of_nat n];
     rr_Endpoint := "router.example:3200";
     rr_Owner := replicate 20 9;
     rr_Networks := [Z.of_nat n] |}.

(** A registry of 51 routers, one more than a page holds. *)
Definition registry_51 : list RegistryRouter := map registry_entry (seq 0 51).

(** A gateway record as the store holds it, with one byte to tell local
    ids apart and one to tell keys (and with them network ids) apart. *)
Definition gw (localID key : Z) : Gateway :=
  {| LocalGatewayID := replicate 7 0 ++ [localID];
     NetworkGatewayID := replicate 7 1 ++ [key];
     Gateway_PrivateKey := None;
     Gateway_PublicKey := None;
     PublicKeyBytes := [];
     CompressedPublicKeyBytes := replicate 32 key;
     Owner := zero_address |}.

(** Two gateways with different keys and the same local id. *)
Definition shared_local_id : list Gateway := [gw 1 10; gw 1 11].

(** Three gateways, the last two with the same local id. *)
Definition shared_local_id_3 : list Gateway := [gw 9 20; gw 1 10; gw 1 11].

(** Three gateways with local ids and keys of their own. *)
Definition three_gateways : list Gateway := [gw 9 20; gw 1 10; gw 2 11].

(** A registry node whose lookup fails for the gateway with key 20 and
    reports an owner and an antenna gain of 3.0 dBi for any other. *)
Definition registry_node : GatewayRegistryNode :=
  {| ethclient_Dial := true;
     NewGatewayRegistry := true;
     registry_Gateways := λ id,
       if decide (id = replicate 32 20) then inr "execution reverted"
       else inl {| rgw_Owner := replicate 20 5; rgw_AntennaGain := 30;
                   rgw_FrequencyPlan := 1; rgw_Location := 0;
                   rgw_Altitude := 4 |} |}.

(** A registry of three routers. *)
Definition registry_3 : list RegistryRouter := map registry_entry (seq 0 3).

(** A node of chain 137 that stops answering after the first page of a
    registry of 2501 routers. *)
Definition failing_second_page : RPCNode :=
  {| DialContext := true;
     node_ChainID := inl 137;
     HeaderByNumber := inl 1000;
     NewRouterRegistryCaller := true;
     RouterCount := λ _, inl 2501;
     RoutersPaged := λ _ start _,
       if decide (start = 0) then inl registry_3 else inr "timeout" |}.

(** An uplink frame with receive information, and one without. *)
Definition uplink : UplinkFrame (list Z) Z :=
  {| RxInfo := Some {| rx_GatewayId := "0000000000000009"; rx_fields := -71 |};
     uf_fields := [64; 1; 2; 3] |}.

(** A node whose registry reports the gateway with key 20 without antenna
    gain, and any other with one. *)
Definition registry_node_zero_gain : GatewayRegistryNode :=
  {| ethclient_Dial := true;
     NewGatewayRegistry := true;
     registry_Gateways := λ id,
       inl {| rgw_Owner := replicate 20 5;
              rgw_AntennaGain := if decide (id = replicate 32 20) then 0 else 30;
              rgw_FrequencyPlan := 1; rgw_Location := 0;
              rgw_Altitude := 4 |} |}.

End sample.

(** * Properties *)

(** ** Byte copies *)

Lemma length_copy_bytes n src : length (copy_bytes n src) = n.
Proof.
  unfold copy_bytes. rewrite length_app, length_take, length_replicate. lia.
Qed.

Lemma copy_bytes_exact n src : length src = n → copy_bytes n src = src.
Proof.
  intros Hlen. unfold copy_bytes.
  rewrite take_ge by lia.
  replace (n - length src)%nat with 0%nat by lia.
  simpl. apply app_nil_r.
Qed.

(** ** Identity derivation *)

Section IdentityDeriver.
Import gateway.
Variable sha256_Sum256 : list byte → vec byte 32.
Variable CompressPubkey : PublicKey → vec byte 33.
Variable FromECDSAPub : PublicKey → vec byte 65.

(** The compressed key is its parity byte followed by the 32 bytes that the
    gateway keeps. *)
Lemma compressed_key_split (pub : PublicKey) :
  vec_to_list (CompressPubkey pub)
  = Vector.hd (CompressPubkey pub)
      :: CalculateCompressedPublicKeyBytes CompressPubkey pub.
Proof.
  unfold CalculateCompressedPublicKeyBytes.
  generalize (CompressPubkey pub). intros v.
  inv_vec v. intros p rest. reflexivity.
Qed.

Lemma length_stripped_key (pub : PublicKey) :
  length (CalculateCompressedPublicKeyBytes CompressPubkey pub) = 32%nat.
Proof.
  unfold CalculateCompressedPublicKeyBytes.
  rewrite length_drop, length_vec_to_list. reflexivity.
Qed.

Lemma network_id_is_hash_prefix (priv : PrivateKey) :
  CalculateNetworkGatewayID sha256_Sum256 CompressPubkey priv
  = take 8 (vec_to_list
              (sha256_Sum256
                 (CalculateCompressedPublicKeyBytes CompressPubkey
                    (PrivateKey_PublicKey priv)))).
Proof.
  unfold gateway.CalculateNetworkGatewayID, BytesToGatewayID.
  apply copy_bytes_exact.
  rewrite length_take, length_vec_to_list. reflexivity.
Qed.

(** C9: for every private key, the network gateway id is the first eight
    bytes of the SHA-256 hash of the compressed public key without its parity
    byte; the registry id [ID] is that parity-stripped key as a 32-byte value;
    and [CompressedPubKeyBytes] puts the constant 0x02 in front of it, where
    the real compressed key has its parity byte, whatever that byte is. *)
Theorem identity_derivation (localID : list Z) (priv : PrivateKey) :
  let pub := PrivateKey_PublicKey priv in
  let parity := Vector.hd (CompressPubkey pub) in
  let stripped := drop 1 (vec_to_list (CompressPubkey pub)) in
  ∃ gw,
    NewGateway sha256_Sum256 CompressPubkey FromECDSAPub localID priv
    = (Some gw, None)
    ∧ vec_to_list (CompressPubkey pub) = parity :: stripped
    ∧ NetworkGatewayID gw
      = CalculateNetworkGatewayID sha256_Sum256 CompressPubkey priv
    ∧ NetworkGatewayID gw = take 8 (vec_to_list (sha256_Sum256 stripped))
    ∧ length (NetworkGatewayID gw) = 8%nat
    ∧ ID gw = stripped
    ∧ length (ID gw) = 32%nat
    ∧ CompressedPubKeyBytes gw = 2 :: stripped.
Proof.
  intros pub parity stripped. eexists. split; [reflexivity|].
  split; [apply compressed_key_split|].
  split; [reflexivity|].
  simpl. rewrite network_id_is_hash_prefix.
  repeat split.
  - rewrite length_take, length_vec_to_list. reflexivity.
  - unfold ID. simpl. apply copy_bytes_exact, length_stripped_key.
  - unfold ID. apply length_copy_bytes.
Qed.

(** C10: a gateway made by [GenerateNewGateway] has no [PublicKeyBytes],
    one made by [NewGateway] from the same key has the 65 bytes of the
    uncompressed public key there; in every other field the two agree. *)
Theorem GenerateNewGateway_leaves_PublicKeyBytes_unset
    (localID : list Z) (priv : PrivateKey) :
  ∃ generated made,
    GenerateNewGateway sha256_Sum256 CompressPubkey (inl priv) localID
    = (Some generated, None)
    ∧ NewGateway sha256_Sum256 CompressPubkey FromECDSAPub localID priv
      = (Some made, None)
    ∧ PublicKeyBytes generated = []
    ∧ PublicKeyBytes made
      = vec_to_list (FromECDSAPub (PrivateKey_PublicKey priv))
    ∧ length (PublicKeyBytes made) = 65%nat
    ∧ LocalGatewayID generated = localID
    ∧ LocalGatewayID made = localID
    ∧ NetworkGatewayID generated = NetworkGatewayID made
    ∧ Gateway_PrivateKey generated = Some priv
    ∧ Gateway_PrivateKey made = Some priv
    ∧ Gateway_PublicKey generated = Some (PrivateKey_PublicKey priv)
    ∧ Gateway_PublicKey made = Some (PrivateKey_PublicKey priv)
    ∧ CompressedPublicKeyBytes generated = CompressedPublicKeyBytes made
    ∧ Owner generated = zero_address
    ∧ Owner made = zero_address
    ∧ made = {| LocalGatewayID := LocalGatewayID generated;
                NetworkGatewayID := NetworkGatewayID generated;
                Gateway_PrivateKey := Gateway_PrivateKey generated;
                Gateway_PublicKey := Gateway_PublicKey generated;
                PublicKeyBytes := PublicKeyBytes made;
                CompressedPublicKeyBytes := CompressedPublicKeyBytes generated;
                Owner := Owner generated |}.
Proof.
  do 2 eexists. split; [reflexivity|]. split; [reflexivity|].
  simpl. repeat split.
  unfold CalculatePublicKeyBytes. apply length_vec_to_list.
Qed.

End IdentityDeriver.

(** ** Integer conversions *)

Section Conversions.
Import forwarder.

Lemma ones_64 : 2 ^ 64 - 1 = Z.ones 64.
Proof. reflexivity. Qed.

Lemma ones_32 : 2 ^ 32 - 1 = Z.ones 32.
Proof. reflexivity. Qed.

Lemma big_Uint64_small (x : Z) : 0 ≤ x < 2 ^ 64 → big_Uint64 x = x.
Proof.
  intros Hx. unfold big_Uint64.
  rewrite Z.abs_eq by lia. rewrite ones_64, Z.land_ones by lia.
  apply Z.mod_small. lia.
Qed.

Lemma to_uint32_small (v : Z) : 0 ≤ v < 2 ^ 32 → to_uint32 v = v.
Proof.
  intros Hv. unfold to_uint32.
  rewrite ones_32, Z.land_ones by lia.
  apply Z.mod_small. lia.
Qed.

Lemma wrap64_small (z : Z) : - 2 ^ 63 ≤ z < 2 ^ 63 → wrap64 z = z.
Proof.
  intros Hz. unfold wrap64.
  rewrite Z.mod_small by lia. lia.
Qed.

Lemma big_Int64_small (x : Z) : 0 ≤ x < 2 ^ 63 → big_Int64 x = x.
Proof.
  intros Hx. unfold big_Int64.
  rewrite big_Uint64_small by lia.
  destruct (decide (x = 0)) as [->|Hne]; [reflexivity|].
  rewrite Z.sgn_pos by lia. rewrite Z.mul_1_l.
  apply wrap64_small. lia.
Qed.

End Conversions.

(** ** NetIDs of the two router sources *)

Section NetIDs.
Import forwarder.

(** On a 32-bit network id the snapshot source yields the bytes of the
    registry source in the opposite order. *)
Lemma snapshot_NetID_reverses_chain_NetID (v : Z) :
  0 ≤ v < 2 ^ 32 → snapshot_NetID v = reverse (chain_NetID v).
Proof.
  intros Hv. unfold snapshot_NetID, chain_NetID.
  rewrite big_Uint64_small by lia. rewrite to_uint32_small by lia.
  reflexivity.
Qed.

(** The two agree exactly on the ids whose low byte equals their third
    byte. *)
Lemma NetID_sources_agree_iff (v : Z) :
  0 ≤ v < 2 ^ 32 →
  chain_NetID v = snapshot_NetID v ↔ to_byte (Z.shiftr v 16) = to_byte v.
Proof.
  intros Hv. unfold snapshot_NetID, chain_NetID.
  rewrite big_Uint64_small by lia. rewrite to_uint32_small by lia.
  simpl. split.
  - intros Heq. injection Heq as H0 _. exact H0.
  - intros Heq. rewrite Heq. reflexivity.
Qed.

(** C3: the two router sources do not assign the same NetID to the raw
    network id 1: the registry source yields 00 00 01, the snapshot source
    01 00 00. *)
Theorem NetID_sources_disagree :
  chain_NetID 1 = [0; 0; 1]
  ∧ snapshot_NetID 1 = [1; 0; 0]
  ∧ chain_NetID 1 ≠ snapshot_NetID 1.
Proof.
  split; [reflexivity|]. split; [reflexivity|].
  vm_compute. discriminate.
Qed.

End NetIDs.

(** ** Dialling the RPC node *)

Section Dial.
Import forwarder.

(** When the chain id cannot be read, the client is closed again. *)
Lemma dialRPCNode_ChainID_error_closes cfg node err open :
  DialContext node = true →
  node_ChainID node = inr err →
  ∃ msg, dialRPCNode cfg node open = (inr msg, open).
Proof.
  intros Hdial Hid. unfold dialRPCNode. rewrite Hdial, Hid. simpl.
  eexists. reflexivity.
Qed.

Lemma dialRPCNode_success cfg node chainID open :
  DialContext node = true →
  node_ChainID node = inl chainID →
  big_Uint64 chainID = Polygon_ChainID cfg →
  dialRPCNode cfg node open = (inl (client_of (Polygon_Endpoint cfg)), S open).
Proof.
  intros Hdial Hid Heq. unfold dialRPCNode. rewrite Hdial, Hid. simpl.
  destruct (decide (big_Uint64 chainID ≠ Polygon_ChainID cfg)); [done|].
  reflexivity.
Qed.

(** C4: when the node is reachable and reports another chain id than the
    configured one, [dialRPCNode] returns an error, and the connection it
    opened is still open: one more than before the call. *)
Theorem dialRPCNode_wrong_chain_leaves_connection_open
    cfg node chainID open :
  DialContext node = true →
  node_ChainID node = inl chainID →
  big_Uint64 chainID ≠ Polygon_ChainID cfg →
  dialRPCNode cfg node open
  = (inr "RPC node connected to wrong chain", S open).
Proof.
  intros Hdial Hid Hne. unfold dialRPCNode. rewrite Hdial, Hid. simpl.
  destruct (decide (big_Uint64 chainID ≠ Polygon_ChainID cfg)); [|done].
  reflexivity.
Qed.

Lemma dialRPCNode_wrong_chain_witness :
  dialRPCNode sample.cfg sample.other_chain_node 0
  = (inr "RPC node connected to wrong chain", 1%nat).
Proof.
  apply (dialRPCNode_wrong_chain_leaves_connection_open
           sample.cfg sample.other_chain_node 80001 0).
  - reflexivity.
  - reflexivity.
  - vm_compute. discriminate.
Defined.

End Dial.

(** ** Router table from the HTTP snapshot *)

Section SnapshotSource.
Import forwarder.

Lemma length_convert_snapshot accounter rs : ∀ i routers,
  length (convert_snapshot accounter i rs routers) = length routers.
Proof.
  induction rs as [|r rest IH]; intros i routers; simpl; [reflexivity|].
  destruct (hex_DecodeString (sr_ID r)).
  - rewrite IH. apply length_insert.
  - apply IH.
Qed.

(** Slots before the current index are not touched any more. *)
Lemma convert_snapshot_before accounter rs : ∀ i routers j,
  (j < i)%nat →
  convert_snapshot accounter i rs routers !! j = routers !! j.
Proof.
  induction rs as [|r rest IH]; intros i routers j Hj; simpl; [reflexivity|].
  destruct (hex_DecodeString (sr_ID r)).
  - rewrite IH by lia. apply list_lookup_insert_ne. lia.
  - apply IH. lia.
Qed.

(** The slot of entry [k]: a router when the id decodes, else what the slot
    held before the loop. *)
Lemma convert_snapshot_slot accounter rs : ∀ i routers k r,
  (i + length rs ≤ length routers)%nat →
  rs !! k = Some r →
  convert_snapshot accounter i rs routers !! (i + k)%nat
  = match snapshot_slot accounter r with
    | Some router => Some (Some router)
    | None => routers !! (i + k)%nat
    end.
Proof.
  induction rs as [|r0 rest IH]; intros i routers k r Hlen Hk; [done|].
  simpl in Hlen. destruct k as [|k]; simpl in Hk.
  - injection Hk as ->. rewrite Nat.add_0_r. simpl. unfold snapshot_slot.
    destruct (hex_DecodeString (sr_ID r)).
    + rewrite convert_snapshot_before by lia.
      apply list_lookup_insert_eq. lia.
    + apply convert_snapshot_before. lia.
  - simpl. replace (i + S k)%nat with (S i + k)%nat by lia.
    destruct (hex_DecodeString (sr_ID r0)).
    + rewrite (IH (S i) _ k r) by (rewrite ?length_insert; (lia || done)).
      destruct (snapshot_slot accounter r); [reflexivity|].
      apply list_lookup_insert_ne. lia.
    + apply IH; (lia || done).
Qed.

(** C8: a snapshot that declares another chain id than the configured one
    is rejected: the update returns an error and no routers. *)
Theorem snapshot_from_wrong_chain_rejected cfg accounter snapshot :
  snapshot_ChainID snapshot ≠ Polygon_ChainID cfg →
  fetchRoutersFromThingsIXAPI_update cfg accounter (Body (inl snapshot))
  = ([], Some "router snapshot from wrong chain").
Proof.
  intros Hne. simpl.
  destruct (decide (snapshot_ChainID snapshot ≠ Polygon_ChainID cfg)); done.
Qed.

Lemma snapshot_from_wrong_chain_witness :
  fetchRoutersFromThingsIXAPI_update sample.cfg sample.accounter
    (Body (inl sample.snapshot_other_chain))
  = ([], Some "router snapshot from wrong chain").
Proof.
  apply (snapshot_from_wrong_chain_rejected
           sample.cfg sample.accounter sample.snapshot_other_chain).
  vm_compute. discriminate.
Defined.

(** C2: for a snapshot of the configured chain the update returns no error
    and a slice with one slot per entry of the snapshot, whether its id
    decodes or not: the slot of an entry with a malformed id is nil, the slot
    of any other entry holds its router.  Five entries of which one is
    malformed give five slots, not four. *)
Theorem malformed_id_leaves_nil_slot cfg accounter snapshot :
  snapshot_ChainID snapshot = Polygon_ChainID cfg →
  ∃ routers,
    fetchRoutersFromThingsIXAPI_update cfg accounter (Body (inl snapshot))
    = (routers, None)
    ∧ length routers = length (snapshot_Routers snapshot)
    ∧ ∀ i r,
        snapshot_Routers snapshot !! i = Some r →
        routers !! i = Some (snapshot_slot accounter r).
Proof.
  intros Heq. simpl.
  destruct (decide (snapshot_ChainID snapshot ≠ Polygon_ChainID cfg)); [done|].
  eexists. split; [reflexivity|]. split.
  - rewrite length_convert_snapshot. apply length_replicate.
  - intros i r Hi.
    pose proof (lookup_lt_Some _ _ _ Hi) as Hlt.
    rewrite (convert_snapshot_slot accounter _ 0 _ i r);
      [|rewrite length_replicate; simpl; lia|exact Hi].
    destruct (snapshot_slot accounter r); [reflexivity|].
    simpl. rewrite lookup_replicate_2 by lia. reflexivity.
Qed.

Lemma malformed_id_leaves_nil_slot_witness :
  ∃ routers,
    fetchRoutersFromThingsIXAPI_update sample.cfg sample.accounter
      (Body (inl sample.snapshot_one_malformed))
    = (routers, None)
    ∧ length routers = 5%nat
    ∧ ∀ i r,
        snapshot_Routers sample.snapshot_one_malformed !! i = Some r →
        routers !! i = Some (snapshot_slot sample.accounter r).
Proof.
  apply (malformed_id_leaves_nil_slot
           sample.cfg sample.accounter sample.snapshot_one_malformed).
  reflexivity.
Defined.

(** The five slots of the sample snapshot: the third is nil. *)
Example five_entries_one_malformed :
  ∃ r1 r2 r4 r5,
    fetchRoutersFromThingsIXAPI_update sample.cfg sample.accounter
      (Body (inl sample.snapshot_one_malformed))
    = ([Some r1; Some r2; None; Some r4; Some r5], None).
Proof. do 4 eexists. vm_compute. reflexivity. Qed.

End SnapshotSource.

(** ** Router table from the registry contract *)

Section ChainSource.
Import forwarder.

Lemma pages_fetched_spec n :
  (2500 * pages_fetched n ≤ n + 2499 < 2500 * pages_fetched n + 2500)%nat.
Proof.
  unfold pages_fetched.
  pose proof (Nat.div_mod_eq (n + 2499) 2500) as Hdiv.
  pose proof (Nat.mod_upper_bound (n + 2499) 2500) as Hmod.
  lia.
Qed.

(** The loop over a registry of [entries], from page [k] on. *)
Lemma fetch_pages_serving chainID head entries callOpts accounter :
  Z.of_nat (length entries) < 2 ^ 62 →
  ∀ fuel k routers,
    (k ≤ pages_fetched (length entries))%nat →
    (pages_fetched (length entries) - k < fuel)%nat →
    fetch_pages fuel (serving chainID head entries) callOpts
      (registry_RouterCount entries) accounter
      (50 * Z.of_nat k) routers
    = Some (routers
              ++ map (λ r, Some (chain_Router accounter r))
                   (take (50 * (pages_fetched (length entries) - k))
                      (drop (50 * k) entries)),
            None).
Proof.
  intros Hn. pose proof (pages_fetched_spec (length entries)) as Hp.
  induction fuel as [|fuel IH]; intros k routers Hk Hfuel; [lia|].
  cbn [fetch_pages serving RoutersPaged].
  unfold pageSize, registry_RouterCount.
  rewrite big_Int64_small by lia.
  rewrite !wrap64_small by lia.
  destruct (Z.ltb_spec (50 * Z.of_nat k * 50) (Z.of_nat (length entries)))
    as [Hlt|Hge].
  - replace (50 * Z.of_nat k + 50) with (50 * Z.of_nat (S k)) by lia.
    rewrite IH by lia.
    f_equal. rewrite <- app_assoc. f_equal. rewrite <- map_app. f_equal.
    unfold registry_RoutersPaged.
    replace (Z.to_nat (50 * Z.of_nat (S k) - 50 * Z.of_nat k)) with 50%nat
      by lia.
    replace (Z.to_nat (50 * Z.of_nat k)) with (50 * k)%nat by lia.
    replace (50 * (pages_fetched (length entries) - k))%nat
      with (50 + 50 * (pages_fetched (length entries) - S k))%nat by lia.
    rewrite <- take_take_drop, drop_drop.
    replace (50 * S k)%nat with (50 * k + 50)%nat by lia. reflexivity.
  - replace (pages_fetched (length entries) - k)%nat with 0%nat by lia.
    rewrite Nat.mul_0_r, take_0, app_nil_r. reflexivity.
Qed.

(** Whatever a node returns for a page: for a router count from 1 to 2500
    the loop requests the one page from 0 to 50 and stops. *)
Lemma fetch_pages_single_request
    node callOpts routerCount accounter page fuel :
  0 < routerCount ≤ 2500 →
  RoutersPaged node callOpts 0 50 = inl page →
  fetch_pages (2 + fuel) node callOpts routerCount accounter 0 []
  = Some (map (λ r, Some (chain_Router accounter r)) page, None).
Proof.
  intros Hcount Hpage.
  cbn [fetch_pages Nat.add]. unfold pageSize.
  rewrite big_Int64_small by lia.
  rewrite !wrap64_small by lia.
  destruct (Z.ltb_spec (0 * 50) routerCount) as [_|?]; [|lia].
  change (0 + 50) with 50. rewrite Hpage.
  destruct (Z.ltb_spec (50 * 50) routerCount) as [?|_]; [lia|].
  reflexivity.
Qed.

(** One update against a node of the configured chain with enough confirmed
    blocks: the routers of the first [pages_fetched] pages, and the
    connection closed again. *)
Lemma fetchRoutersFromChain_update_serving
    cfg accounter head entries fuel open :
  0 ≤ Polygon_ChainID cfg < 2 ^ 64 →
  0 ≤ Polygon_Confirmations cfg ≤ head →
  head < 2 ^ 64 →
  Z.of_nat (length entries) < 2 ^ 62 →
  (pages_fetched (length entries) < fuel)%nat →
  fetchRoutersFromChain_update cfg accounter
    (serving (Polygon_ChainID cfg) head entries) fuel open
  = (Some (map (λ r, Some (chain_Router accounter r))
             (take (50 * pages_fetched (length entries)) entries),
           None),
     open).
Proof.
  intros Hchain Hconf Hhead Hn Hfuel.
  unfold fetchRoutersFromChain_update.
  rewrite (dialRPCNode_success cfg _ (Polygon_ChainID cfg) open);
    [|reflexivity|reflexivity|apply big_Uint64_small; lia].
  simpl. rewrite big_Uint64_small by lia.
  destruct (Z.ltb_spec head (Polygon_Confirmations cfg)) as [?|_]; [lia|].
  f_equal.
  pose proof (fetch_pages_serving (Polygon_ChainID cfg) head entries
                (head - Polygon_Confirmations cfg) accounter Hn
                fuel 0 []) as Hloop.
  simpl in Hloop. rewrite Nat.sub_0_r in Hloop.
  apply Hloop; lia.
Qed.


(** C1: of a registry of more than 50 routers, a successful update does not
    return every router.  It returns the first 50 * ceil(N / 2500) of the N
    entries and no others, which are fewer than N: the loop compares 50 times
    the page start, not the page start, with the router count. *)
Theorem fetchRoutersFromChain_omits_routers
    cfg accounter head entries fuel open :
  0 ≤ Polygon_ChainID cfg < 2 ^ 64 →
  0 ≤ Polygon_Confirmations cfg ≤ head →
  head < 2 ^ 64 →
  (50 < length entries)%nat →
  Z.of_nat (length entries) < 2 ^ 62 →
  (pages_fetched (length entries) < fuel)%nat →
  ∃ routers,
    fetchRoutersFromChain_update cfg accounter
      (serving (Polygon_ChainID cfg) head entries) fuel open
    = (Some (routers, None), open)
    ∧ routers = map (λ r, Some (chain_Router accounter r))
                  (take (50 * pages_fetched (length entries)) entries)
    ∧ length routers = (50 * pages_fetched (length entries))%nat
    ∧ (length routers < length entries)%nat.
Proof.
  intros Hchain Hconf Hhead Hmany Hn Hfuel.
  pose proof (pages_fetched_spec (length entries)) as Hp.
  eexists. split; [apply fetchRoutersFromChain_update_serving; lia|].
  split; [reflexivity|].
  rewrite length_map, length_take. lia.
Qed.

Lemma fetchRoutersFromChain_omits_routers_witness :
  ∃ routers,
    fetchRoutersFromChain_update sample.cfg sample.accounter
      (serving 137 1000 sample.registry_51) 2 0
    = (Some (routers, None), 0%nat)
    ∧ routers = map (λ r, Some (chain_Router sample.accounter r))
                  (take 50 sample.registry_51)
    ∧ length routers = 50%nat
    ∧ (length routers < 51)%nat.
Proof.
  apply (fetchRoutersFromChain_omits_routers
           sample.cfg sample.accounter 1000 sample.registry_51 2 0).
  - vm_compute. split; [discriminate|reflexivity].
  - vm_compute. split; discriminate.
  - reflexivity.
  - vm_compute. lia.
  - reflexivity.
  - vm_compute. lia.
Defined.

End ChainSource.

(** ** Gateway trust tables *)

Section TrustTables.
Import gateway forwarder.

Lemma range_gateways_app body l1 l2 st :
  range_gateways body (l1 ++ l2) st
  = match range_gateways body l1 st with
    | Returned st' => range_gateways body l2 st'
    | Panicked => Panicked
    end.
Proof.
  revert st. induction l1 as [|p l1 IH]; intros st; simpl; [reflexivity|].
  destruct (body st p); [apply IH|reflexivity].
Qed.

Lemma range_gateways_ext body1 body2 l :
  (∀ st p, body1 st p = body2 st p) →
  ∀ st, range_gateways body1 l st = range_gateways body2 l st.
Proof.
  intros Hbody. induction l as [|p l IH]; intros st; simpl; [reflexivity|].
  rewrite Hbody. destruct (body2 st p); [apply IH|reflexivity].
Qed.

Lemma registry_body_verdict node st p :
  registry_body node st p = verdict_body (registry_verdict node) st p.
Proof.
  unfold registry_body, verdict_body, registry_verdict.
  destruct (gateways st !! p) as [gw|]; [|reflexivity].
  destruct (registry_Gateways node (ID gw)) as [rgw|]; [|reflexivity].
  destruct (decide (rgw_AntennaGain rgw ≠ 0)); reflexivity.
Qed.

Lemma accept_all_body_verdict st p :
  accept_all_body st p = verdict_body Some st p.
Proof.
  unfold accept_all_body, verdict_body.
  destruct (gateways st !! p) as [gw|] eqn:Hp; [|reflexivity].
  rewrite list_insert_id by exact Hp. reflexivity.
Qed.

Lemma set_Owner_ids gw owner :
  LocalGatewayID (set_Owner gw owner) = LocalGatewayID gw
  ∧ NetworkGatewayID (set_Owner gw owner) = NetworkGatewayID gw.
Proof. split; reflexivity. Qed.

Lemma registry_verdict_ids node gw gw' :
  registry_verdict node gw = Some gw' →
  LocalGatewayID gw' = LocalGatewayID gw
  ∧ NetworkGatewayID gw' = NetworkGatewayID gw.
Proof.
  unfold registry_verdict. intros Hverdict.
  destruct (registry_Gateways node (ID gw)) as [rgw|]; [|done].
  destruct (decide (rgw_AntennaGain rgw ≠ 0)); [|done].
  injection Hverdict as <-. apply set_Owner_ids.
Qed.

(** In a list without duplicates of ids, an id is found at one index. *)
Lemma distinct_id_index {K} (f : Gateway → K) (store : list Gateway)
    p q gw gw' :
  NoDup (f <$> store) →
  store !! p = Some gw → store !! q = Some gw' → f gw = f gw' → p = q.
Proof.
  intros Hnodup Hp Hq Heq.
  apply (NoDup_lookup (f <$> store) p q (f gw) Hnodup).
  - rewrite list_lookup_fmap, Hp. reflexivity.
  - rewrite list_lookup_fmap, Hq, Heq. reflexivity.
Qed.

Section Loop.
Variable verdict : Gateway → option Gateway.
Variable store : list Gateway.
Hypothesis verdict_ids : ∀ gw gw',
  verdict gw = Some gw' →
  LocalGatewayID gw' = LocalGatewayID gw
  ∧ NetworkGatewayID gw' = NetworkGatewayID gw.

Lemma visited_none : visited verdict store 0 (empty_tables store).
Proof.
  unfold visited, empty_tables. simpl.
  split; [reflexivity|].
  split; [intros q; destruct (decide (q < 0)%nat); [lia|reflexivity]|].
  split; [intros k p Hk; by rewrite lookup_empty in Hk|].
  split; [intros k p Hk; by rewrite lookup_empty in Hk|].
  split; intros _ p gw gw' Hp; lia.
Qed.

(** A gateway that is not trusted leaves the state as it is. *)
Lemma visited_skip n st gw :
  store !! n = Some gw → verdict gw = None →
  visited verdict store n st → visited verdict store (S n) st.
Proof.
  intros Hn Hverdict (Hlen & Hheap & HL & HN & HLc & HNc).
  split; [exact Hlen|]. split; [|split; [|split; [|split]]].
  - intros q. rewrite Hheap.
    destruct (decide (q < n)%nat), (decide (q < S n)%nat);
      try reflexivity; try lia.
    assert (q = n) as -> by lia. rewrite Hn. simpl. rewrite Hverdict.
    reflexivity.
  - intros k p Hk. destruct (HL k p Hk) as [Hlt Hex]. split; [lia|exact Hex].
  - intros k p Hk. destruct (HN k p Hk) as [Hlt Hex]. split; [lia|exact Hex].
  - intros Hnodup p gw0 gw0' Hp Hp0 Ha.
    destruct (decide (p = n)) as [->|Hne]; [congruence|].
    apply (HLc Hnodup p gw0 gw0'); [lia|done|done].
  - intros Hnodup p gw0 gw0' Hp Hp0 Ha.
    destruct (decide (p = n)) as [->|Hne]; [congruence|].
    apply (HNc Hnodup p gw0 gw0'); [lia|done|done].
Qed.

(** A trusted gateway is written back and entered in both maps. *)
Lemma visited_trusted n st gw gw' :
  store !! n = Some gw → verdict gw = Some gw' →
  visited verdict store n st →
  visited verdict store (S n)
    {| gateways := <[n := gw']> (gateways st);
       trustedGatewaysByLocalID :=
         <[LocalGatewayID gw' := n]> (trustedGatewaysByLocalID st);
       trustedGatewaysByNetworkID :=
         <[NetworkGatewayID gw' := n]> (trustedGatewaysByNetworkID st) |}.
Proof.
  intros Hn Hverdict (Hlen & Hheap & HL & HN & HLc & HNc).
  destruct (verdict_ids gw gw' Hverdict) as [HidL HidN].
  pose proof (lookup_lt_Some _ _ _ Hn) as Hlt.
  unfold visited. simpl.
  split; [rewrite length_insert; exact Hlen|].
  split; [|split; [|split; [|split]]].
  - intros q. destruct (decide (q = n)) as [->|Hne].
    + rewrite list_lookup_insert_eq by lia.
      destruct (decide (n < S n)%nat); [|lia].
      rewrite Hn. simpl. rewrite Hverdict. reflexivity.
    + rewrite list_lookup_insert_ne by done. rewrite Hheap.
      destruct (decide (q < n)%nat), (decide (q < S n)%nat);
        try reflexivity; lia.
  - intros k p Hk. rewrite lookup_insert in Hk.
    destruct (decide (LocalGatewayID gw' = k)) as [<-|Hne].
    + injection Hk as <-. split; [lia|]. by exists gw, gw'.
    + destruct (HL k p Hk) as [Hp Hex]. split; [lia|exact Hex].
  - intros k p Hk. rewrite lookup_insert in Hk.
    destruct (decide (NetworkGatewayID gw' = k)) as [<-|Hne].
    + injection Hk as <-. split; [lia|]. by exists gw, gw'.
    + destruct (HN k p Hk) as [Hp Hex]. split; [lia|exact Hex].
  - intros Hnodup p gw0 gw0' Hp Hp0 Ha.
    destruct (decide (p = n)) as [->|Hne].
    + assert (gw0 = gw) as -> by congruence.
      rewrite HidL. apply lookup_insert_eq.
    + rewrite lookup_insert_ne.
      * apply (HLc Hnodup p gw0 gw0'); [lia|done|done].
      * rewrite HidL. intros Heq. apply Hne. symmetry.
        exact (distinct_id_index LocalGatewayID store n p gw gw0
                 Hnodup Hn Hp0 Heq).
  - intros Hnodup p gw0 gw0' Hp Hp0 Ha.
    destruct (decide (p = n)) as [->|Hne].
    + assert (gw0 = gw) as -> by congruence.
      rewrite HidN. apply lookup_insert_eq.
    + rewrite lookup_insert_ne.
      * apply (HNc Hnodup p gw0 gw0'); [lia|done|done].
      * rewrite HidN. intros Heq. apply Hne. symmetry.
        exact (distinct_id_index NetworkGatewayID store n p gw gw0
                 Hnodup Hn Hp0 Heq).
Qed.

(** The loop over the first [n] gateways returns, in a state that has
    visited them. *)
Lemma range_gateways_visited n :
  (n ≤ length store)%nat →
  ∃ st, range_gateways (verdict_body verdict) (seq 0 n) (empty_tables store)
        = Returned st
        ∧ visited verdict store n st.
Proof.
  induction n as [|n IH]; intros Hn.
  - exists (empty_tables store). split; [reflexivity|apply visited_none].
  - destruct IH as (st & Hrun & Hst); [lia|].
    destruct (lookup_lt_is_Some_2 store n) as [gw Hgw]; [lia|].
    rewrite seq_S, range_gateways_app, Hrun. simpl.
    unfold verdict_body.
    assert (gateways st !! n = Some gw) as ->.
    { destruct Hst as (_ & Hheap & _). rewrite Hheap.
      destruct (decide (n < n)%nat); [lia|exact Hgw]. }
    destruct (verdict gw) as [gw'|] eqn:Hverdict.
    + eexists. split; [reflexivity|]. by apply visited_trusted with gw.
    + exists st. split; [reflexivity|]. by apply visited_skip with gw.
Qed.

Lemma range_gateways_store :
  ∃ st, range_gateways (verdict_body verdict) (Store_Gateways store)
          (empty_tables store)
        = Returned st
        ∧ visited verdict store (length store) st.
Proof. apply range_gateways_visited. lia. Qed.

End Loop.

(** What a state that has visited the whole inventory tells. *)

Lemma visited_heap verdict store st p gw :
  visited verdict store (length store) st →
  store !! p = Some gw →
  gateways st !! p = Some (default gw (verdict gw)).
Proof.
  intros (_ & Hheap & _) Hp. rewrite Hheap.
  pose proof (lookup_lt_Some _ _ _ Hp).
  destruct (decide (p < length store)%nat); [|lia].
  rewrite Hp. reflexivity.
Qed.

Lemma visited_in_both_maps verdict store st p gw gw' :
  (∀ gw gw', verdict gw = Some gw' →
     LocalGatewayID gw' = LocalGatewayID gw
     ∧ NetworkGatewayID gw' = NetworkGatewayID gw) →
  distinct_ids store →
  visited verdict store (length store) st →
  store !! p = Some gw → verdict gw = Some gw' →
  in_both_maps st p.
Proof.
  intros Hids [HdL HdN] Hst Hp Hverdict.
  pose proof (visited_heap verdict store st p gw Hst Hp) as Hheap.
  destruct Hst as (_ & _ & _ & _ & HLc & HNc).
  pose proof (lookup_lt_Some _ _ _ Hp) as Hlt.
  destruct (Hids gw gw' Hverdict) as [HidL HidN].
  exists gw'. rewrite Hheap, Hverdict, HidL, HidN.
  split; [reflexivity|]. split.
  - by apply (HLc HdL p gw gw').
  - by apply (HNc HdN p gw gw').
Qed.

Lemma visited_in_no_map verdict store st p gw :
  visited verdict store (length store) st →
  store !! p = Some gw → verdict gw = None →
  in_no_map st p.
Proof.
  intros (_ & _ & HL & HN & _) Hp Hverdict. split; intros k Hk.
  - destruct (HL k p Hk) as (_ & gw0 & gw0' & Hp0 & Ha & _). congruence.
  - destruct (HN k p Hk) as (_ & gw0 & gw0' & Hp0 & Ha & _). congruence.
Qed.

Lemma visited_tables_agree verdict store st :
  (∀ gw gw', verdict gw = Some gw' →
     LocalGatewayID gw' = LocalGatewayID gw
     ∧ NetworkGatewayID gw' = NetworkGatewayID gw) →
  distinct_ids store →
  visited verdict store (length store) st →
  tables_agree st.
Proof.
  intros Hids Hdist Hst. split; intros k p Hk.
  - destruct Hst as (? & ? & HL & ?).
    destruct (HL k p Hk) as (_ & gw & gw' & Hp & Hverdict & _).
    by apply (visited_in_both_maps verdict store st p gw gw').
  - destruct Hst as (? & ? & ? & HN & ?).
    destruct (HN k p Hk) as (_ & gw & gw' & Hp & Hverdict & _).
    by apply (visited_in_both_maps verdict store st p gw gw').
Qed.

Lemma visited_absent_untouched verdict store st :
  (∀ gw gw', verdict gw = Some gw' →
     LocalGatewayID gw' = LocalGatewayID gw
     ∧ NetworkGatewayID gw' = NetworkGatewayID gw) →
  distinct_ids store →
  visited verdict store (length store) st →
  absent_untouched store st.
Proof.
  intros Hids Hdist Hst p [HnoL _].
  destruct (store !! p) as [gw|] eqn:Hp.
  - rewrite (visited_heap verdict store st p gw Hst Hp).
    destruct (verdict gw) as [gw'|] eqn:Hverdict; [|reflexivity].
    destruct (visited_in_both_maps verdict store st p gw gw'
                Hids Hdist Hst Hp Hverdict) as (g & _ & HinL & _).
    by destruct (HnoL (LocalGatewayID g)).
  - destruct Hst as (Hlen & _). apply lookup_ge_None.
    rewrite Hlen. by apply lookup_ge_None.
Qed.

Lemma Some_ids (gw gw' : Gateway) :
  Some gw = Some gw' →
  LocalGatewayID gw' = LocalGatewayID gw
  ∧ NetworkGatewayID gw' = NetworkGatewayID gw.
Proof. intros [= ->]. split; reflexivity. Qed.

(** The open policy runs the loop that trusts every gateway as it is. *)
Lemma open_policy_visited cfg node store :
  Gateways_RegistryAddress cfg = None →
  ∃ st, onboardedAndRegisteredGateways cfg node store = Returned (st, None)
        ∧ visited Some store (length store) st.
Proof.
  intros Hopen. unfold onboardedAndRegisteredGateways. rewrite Hopen.
  rewrite bool_decide_eq_false_2 by (intros Hne; by apply Hne).
  cbn [negb].
  rewrite (range_gateways_ext accept_all_body (verdict_body Some))
    by apply accept_all_body_verdict.
  destruct (range_gateways_store Some store Some_ids) as (st & -> & Hst).
  by exists st.
Qed.

(** The registry policy, against a node that can be dialled and whose
    bindings can be instantiated, runs the loop of [registry_verdict]. *)
Lemma registry_policy_visited cfg node store :
  Gateways_RegistryAddress cfg ≠ None →
  ethclient_Dial node = true →
  NewGatewayRegistry node = true →
  ∃ st, onboardedAndRegisteredGateways cfg node store = Returned (st, None)
        ∧ visited (registry_verdict node) store (length store) st.
Proof.
  intros Hreg Hdial Hbind. unfold onboardedAndRegisteredGateways.
  rewrite bool_decide_eq_true_2 by exact Hreg. cbn [negb].
  unfold acceptOnlyOnboardedAndRegistryGateways.
  rewrite Hdial, Hbind. cbn [negb].
  rewrite (range_gateways_ext (registry_body node)
             (verdict_body (registry_verdict node)))
    by apply registry_body_verdict.
  destruct (range_gateways_store (registry_verdict node) store
              (registry_verdict_ids node)) as (st & -> & Hst).
  by exists st.
Qed.

End TrustTables.

(** ** The two trust policies *)

Section TrustPolicies.
Import gateway forwarder.

(** The open policy on two gateways that share a local id: the second
    takes the place of the first in the map by local id. *)
Lemma open_policy_shared_local_id :
  onboardedAndRegisteredGateways sample.cfg sample.registry_node
    sample.shared_local_id
  = Returned
      ({| gateways := sample.shared_local_id;
          trustedGatewaysByLocalID :=
            <[LocalGatewayID (sample.gw 1 11) := 1%nat]>
              (<[LocalGatewayID (sample.gw 1 10) := 0%nat]> ∅);
          trustedGatewaysByNetworkID :=
            <[NetworkGatewayID (sample.gw 1 11) := 1%nat]>
              (<[NetworkGatewayID (sample.gw 1 10) := 0%nat]> ∅) |},
       None).
Proof. reflexivity. Qed.

Lemma shared_local_id_not_in_both_maps st err :
  onboardedAndRegisteredGateways sample.cfg sample.registry_node
    sample.shared_local_id = Returned (st, err) →
  ¬ in_both_maps st 0.
Proof.
  rewrite open_policy_shared_local_id. intros [= <- <-].
  intros (gw & Hgw & HL & _). simpl in Hgw. injection Hgw as <-.
  simpl in HL.
  change (LocalGatewayID (sample.gw 1 10))
    with (LocalGatewayID (sample.gw 1 11)) in HL.
  rewrite lookup_insert_eq in HL. discriminate.
Qed.

(** C5, as stated, fails: of two inventory gateways with the same local id
    the open policy keeps only the second in the map by local id. *)
Lemma open_policy_loses_shared_local_id :
  ¬ (∀ cfg node store,
       Gateways_RegistryAddress cfg = None →
       ∃ st err,
         onboardedAndRegisteredGateways cfg node store = Returned (st, err)
         ∧ holds_exactly_the_inventory store st).
Proof.
  intros Hclaim.
  destruct (Hclaim sample.cfg sample.registry_node sample.shared_local_id
              eq_refl) as (st & err & Hrun & Hall & _).
  apply (shared_local_id_not_in_both_maps st err Hrun).
  apply Hall. simpl. lia.
Qed.

(** C5, amended: with no registry configured and an inventory in which no
    two gateways share a local id or a network id, the build returns without
    an error, leaves the gateways as they are, and the two maps hold every
    gateway of the inventory, under its local id and under its network id,
    and nothing else. *)
Theorem open_policy_trusts_every_gateway cfg node store :
  Gateways_RegistryAddress cfg = None →
  distinct_ids store →
  ∃ st,
    onboardedAndRegisteredGateways cfg node store = Returned (st, None)
    ∧ gateways st = store
    ∧ holds_exactly_the_inventory store st.
Proof.
  intros Hopen Hdist.
  destruct (open_policy_visited cfg node store Hopen) as (st & Hrun & Hst).
  exists st. split; [exact Hrun|]. split; [|split; [|split]].
  - apply list_eq. intros q. destruct (store !! q) as [gw|] eqn:Hq.
    + by rewrite (visited_heap Some store st q gw Hst Hq).
    + destruct Hst as (Hlen & _). apply lookup_ge_None.
      rewrite Hlen. by apply lookup_ge_None.
  - intros p Hp. destruct (lookup_lt_is_Some_2 store p Hp) as [gw Hgw].
    by apply (visited_in_both_maps Some store st p gw gw Some_ids).
  - intros k p Hk. destruct Hst as (_ & _ & HL & _).
    destruct (HL k p Hk) as (_ & gw & _ & Hgw & _ & Hid). by exists gw.
  - intros k p Hk. destruct Hst as (_ & _ & _ & HN & _).
    destruct (HN k p Hk) as (_ & gw & _ & Hgw & _ & Hid). by exists gw.
Qed.

Lemma open_policy_trusts_every_gateway_witness :
  ∃ st,
    onboardedAndRegisteredGateways sample.cfg sample.registry_node
      sample.three_gateways = Returned (st, None)
    ∧ gateways st = sample.three_gateways
    ∧ holds_exactly_the_inventory sample.three_gateways st.
Proof.
  apply (open_policy_trusts_every_gateway
           sample.cfg sample.registry_node sample.three_gateways).
  - reflexivity.
  - split; apply (bool_decide_unpack _); vm_compute; reflexivity.
Defined.

(** C6, as stated, fails: of two gateways with the same local id, the first
    is in the map by network id and not in the map by local id. *)
Lemma tables_disagree_on_shared_local_id :
  ¬ (∀ cfg node store st err,
       onboardedAndRegisteredGateways cfg node store = Returned (st, err) →
       tables_agree st ∧ absent_untouched store st).
Proof.
  intros Hclaim.
  destruct (Hclaim _ _ _ _ _ open_policy_shared_local_id) as [[_ HN] _].
  apply (shared_local_id_not_in_both_maps _ _ open_policy_shared_local_id).
  apply (HN (NetworkGatewayID (sample.gw 1 10))). simpl.
  rewrite lookup_insert_ne by (vm_compute; discriminate).
  apply lookup_insert_eq.
Qed.

(** C6, amended: for an inventory in which no two gateways share a local id
    or a network id, whatever the build returns under either policy has two
    maps that agree (a gateway found in one is in both, under its local id
    and under its network id), and a gateway that is in neither map is as it
    was in the inventory.  The build returns unless a registry is configured
    and the node cannot be dialled. *)
Theorem trust_tables_agree cfg node store :
  distinct_ids store →
  match onboardedAndRegisteredGateways cfg node store with
  | Returned (st, _) => tables_agree st ∧ absent_untouched store st
  | Panicked =>
      Gateways_RegistryAddress cfg ≠ None ∧ ethclient_Dial node = false
  end.
Proof.
  intros Hdist.
  destruct (Gateways_RegistryAddress cfg) as [addr|] eqn:Hreg.
  - destruct (ethclient_Dial node) eqn:Hdial;
      [destruct (NewGatewayRegistry node) eqn:Hbind|].
    + destruct (registry_policy_visited cfg node store) as (st & -> & Hst);
        [by rewrite Hreg|done|done|].
      split.
      * by apply (visited_tables_agree (registry_verdict node) store st
                    (registry_verdict_ids node)).
      * by apply (visited_absent_untouched (registry_verdict node) store st
                    (registry_verdict_ids node)).
    + unfold onboardedAndRegisteredGateways. rewrite Hreg.
      rewrite bool_decide_eq_true_2 by done. cbn [negb].
      unfold acceptOnlyOnboardedAndRegistryGateways.
      rewrite Hdial, Hbind. cbn [negb]. split.
      * split; intros k p Hk; exfalso; exact (lookup_empty_Some k p Hk).
      * intros p _. reflexivity.
    + unfold onboardedAndRegisteredGateways. rewrite Hreg.
      rewrite bool_decide_eq_true_2 by done. cbn [negb].
      unfold acceptOnlyOnboardedAndRegistryGateways.
      rewrite Hdial. cbn [negb]. done.
  - destruct (open_policy_visited cfg node store Hreg) as (st & -> & Hst).
    split.
    + by apply (visited_tables_agree Some store st Some_ids).
    + by apply (visited_absent_untouched Some store st Some_ids).
Qed.

Lemma trust_tables_agree_witness :
  match onboardedAndRegisteredGateways sample.cfg_registry
          sample.registry_node sample.three_gateways with
  | Returned (st, _) =>
      tables_agree st ∧ absent_untouched sample.three_gateways st
  | Panicked =>
      Gateways_RegistryAddress sample.cfg_registry ≠ None
      ∧ ethclient_Dial sample.registry_node = false
  end.
Proof.
  apply (trust_tables_agree
           sample.cfg_registry sample.registry_node sample.three_gateways).
  split; apply (bool_decide_unpack _); vm_compute; reflexivity.
Defined.

(** The registry policy on three gateways of which the first fails its
    lookup and the other two share a local id. *)
Lemma registry_policy_shared_local_id :
  onboardedAndRegisteredGateways sample.cfg_registry sample.registry_node
    sample.shared_local_id_3
  = Returned
      ({| gateways :=
            [sample.gw 9 20;
             set_Owner (sample.gw 1 10) (replicate 20 5);
             set_Owner (sample.gw 1 11) (replicate 20 5)];
          trustedGatewaysByLocalID :=
            <[LocalGatewayID (sample.gw 1 11) := 2%nat]>
              (<[LocalGatewayID (sample.gw 1 10) := 1%nat]> ∅);
          trustedGatewaysByNetworkID :=
            <[NetworkGatewayID (sample.gw 1 11) := 2%nat]>
              (<[NetworkGatewayID (sample.gw 1 10) := 1%nat]> ∅) |},
       None).
Proof. reflexivity. Qed.

(** C7, as stated, fails: when two of the gateways whose lookup succeeds
    share a local id, the first of them is not in the map by local id. *)
Lemma lookup_failure_with_shared_local_id :
  ¬ (∀ cfg node store G gwG err,
       Gateways_RegistryAddress cfg ≠ None →
       ethclient_Dial node = true →
       NewGatewayRegistry node = true →
       store !! G = Some gwG →
       registry_Gateways node (ID gwG) = inr err →
       (∀ p gw, p ≠ G → store !! p = Some gw →
          ∃ rgw, registry_Gateways node (ID gw) = inl rgw
                 ∧ rgw_AntennaGain rgw ≠ 0) →
       ∃ st e,
         onboardedAndRegisteredGateways cfg node store = Returned (st, e)
         ∧ ∀ p, (p < length store)%nat → p ≠ G → in_both_maps st p).
Proof.
  intros Hclaim.
  destruct (Hclaim sample.cfg_registry sample.registry_node
              sample.shared_local_id_3 0%nat (sample.gw 9 20)
              "execution reverted")
    as (st & e & Hrun & Hothers).
  - discriminate.
  - reflexivity.
  - reflexivity.
  - reflexivity.
  - reflexivity.
  - intros p gw Hp Hgw.
    destruct p as [|[|[|p]]]; [done| | |done];
      injection Hgw as <-; eexists; (split; [reflexivity|discriminate]).
  - rewrite registry_policy_shared_local_id in Hrun.
    injection Hrun as <- <-.
    destruct (Hothers 1%nat) as (gw & Hgw & HL & _); [simpl; lia|lia|].
    simpl in Hgw. injection Hgw as <-. simpl in HL.
    change (LocalGatewayID (set_Owner (sample.gw 1 10) (replicate 20 5)))
      with (LocalGatewayID (sample.gw 1 11)) in HL.
    rewrite lookup_insert_eq in HL. discriminate.
Qed.

(** C7, amended: under the registry policy, with a node that can be dialled
    and an inventory in which no two gateways share a local id or a network
    id, if the lookup fails for gateway G and succeeds with a non-zero
    antenna gain for every other gateway, the build returns without an error,
    every gateway other than G is in both maps, and G is in neither and as it
    was. *)
Theorem registry_lookup_failure_is_isolated cfg node store G gwG err :
  Gateways_RegistryAddress cfg ≠ None →
  ethclient_Dial node = true →
  NewGatewayRegistry node = true →
  distinct_ids store →
  store !! G = Some gwG →
  registry_Gateways node (ID gwG) = inr err →
  (∀ p gw, p ≠ G → store !! p = Some gw →
     ∃ rgw, registry_Gateways node (ID gw) = inl rgw
            ∧ rgw_AntennaGain rgw ≠ 0) →
  ∃ st,
    onboardedAndRegisteredGateways cfg node store = Returned (st, None)
    ∧ (∀ p, (p < length store)%nat → p ≠ G → in_both_maps st p)
    ∧ in_no_map st G
    ∧ gateways st !! G = Some gwG.
Proof.
  intros Hreg Hdial Hbind Hdist HG Hfail Hothers.
  destruct (registry_policy_visited cfg node store Hreg Hdial Hbind)
    as (st & Hrun & Hst).
  assert (HverdictG : registry_verdict node gwG = None).
  { unfold registry_verdict. by rewrite Hfail. }
  exists st. split; [exact Hrun|]. split; [|split].
  - intros p Hp Hne.
    destruct (lookup_lt_is_Some_2 store p Hp) as [gw Hgw].
    destruct (Hothers p gw Hne Hgw) as (rgw & Hlookup & Hgain).
    apply (visited_in_both_maps (registry_verdict node) store st p gw
             (set_Owner gw (rgw_Owner rgw)) (registry_verdict_ids node)
             Hdist Hst Hgw).
    unfold registry_verdict. rewrite Hlookup.
    destruct (decide (rgw_AntennaGain rgw ≠ 0)); done.
  - by apply (visited_in_no_map (registry_verdict node) store st G gwG).
  - rewrite (visited_heap (registry_verdict node) store st G gwG Hst HG).
    by rewrite HverdictG.
Qed.

Lemma registry_lookup_failure_is_isolated_witness :
  ∃ st,
    onboardedAndRegisteredGateways sample.cfg_registry sample.registry_node
      sample.three_gateways = Returned (st, None)
    ∧ (∀ p, (p < 3)%nat → p ≠ 0%nat → in_both_maps st p)
    ∧ in_no_map st 0
    ∧ gateways st !! 0%nat = Some (sample.gw 9 20).
Proof.
  apply (registry_lookup_failure_is_isolated
           sample.cfg_registry sample.registry_node sample.three_gateways
           0%nat (sample.gw 9 20) "execution reverted").
  - discriminate.
  - reflexivity.
  - reflexivity.
  - split; apply (bool_decide_unpack _); vm_compute; reflexivity.
  - reflexivity.
  - reflexivity.
  - intros p gw Hp Hgw.
    destruct p as [|[|[|p]]]; [done| | |done];
      injection Hgw as <-; eexists; (split; [reflexivity|discriminate]).
Defined.

End TrustPolicies.

(** * Further properties *)

(** ** Refresh intervals *)

Section Intervals.
Import forwarder.



End Intervals.

(** ** The update from the registry contract, on every path *)

Section ChainUpdate.
Import forwarder.

(** The loop returns routers or an error, not both. *)
Lemma fetch_pages_error_no_routers node callOpts routerCount accounter :
  ∀ fuel i routers rs e,
    fetch_pages fuel node callOpts routerCount accounter i routers
    = Some (rs, Some e) →
    rs = [].
Proof.
  induction fuel as [|fuel IH]; intros i routers rs e Hrun; [done|].
  cbn [fetch_pages] in Hrun.
  destruct (wrap64 (i * pageSize) <? big_Int64 routerCount); [|done].
  destruct (RoutersPaged node callOpts i (wrap64 (i + pageSize)))
    as [fetched|err].
  - by apply IH in Hrun.
  - by injection Hrun as <- _.
Qed.

(** Every slot that the loop adds holds a router. *)
Lemma fetch_pages_no_nil node callOpts routerCount accounter :
  ∀ fuel i routers rs err,
    Forall is_Some routers →
    fetch_pages fuel node callOpts routerCount accounter i routers
    = Some (rs, err) →
    Forall is_Some rs.
Proof.
  induction fuel as [|fuel IH]; intros i routers rs err Hacc Hrun; [done|].
  cbn [fetch_pages] in Hrun.
  destruct (wrap64 (i * pageSize) <? big_Int64 routerCount).
  - destruct (RoutersPaged node callOpts i (wrap64 (i + pageSize)))
      as [fetched|e].
    + apply IH in Hrun; [exact Hrun|].
      apply Forall_app. split; [exact Hacc|].
      apply Forall_forall. intros slot Hslot.
      apply list_elem_of_In, in_map_iff in Hslot as (r & <- & _). by eexists.
    + injection Hrun as <- _. constructor.
  - by injection Hrun as <- _.
Qed.


(** An update that returns an error returns no routers with it, also when
    the error comes up after pages were fetched. *)
Theorem fetchRoutersFromChain_update_error_no_routers
    cfg accounter node fuel open routers e open' :
  fetchRoutersFromChain_update cfg accounter node fuel open
  = (Some (routers, Some e), open') →
  routers = [].
Proof.
  unfold fetchRoutersFromChain_update.
  destruct (dialRPCNode cfg node open) as [[client|err] open1].
  - destruct (HeaderByNumber node) as [head|]; [|by intros [= <- _ _]].
    destruct (big_Uint64 head <? Polygon_Confirmations cfg); [done|].
    destruct (NewRouterRegistryCaller node); cbn [negb];
      [|by intros [= <- _ _]].
    destruct (RouterCount node _) as [routerCount|]; [|by intros [= <- _ _]].
    intros [= Hrun _].
    by apply fetch_pages_error_no_routers in Hrun.
  - by intros [= <- _ _].
Qed.

Lemma fetchRoutersFromChain_update_error_witness :
  fetchRoutersFromChain_update sample.cfg sample.accounter
    sample.failing_second_page 5 0
  = (Some ([], Some "unable to retrieve routers from registry"), 0%nat)
  ∧ @nil (option Router) = [].
Proof.
  split; [reflexivity|].
  apply (fetchRoutersFromChain_update_error_no_routers
           sample.cfg sample.accounter sample.failing_second_page 5 0
           [] "unable to retrieve routers from registry" 0%nat).
  reflexivity.
Defined.

(** No slot of the slice that an update returns is nil. *)
Theorem fetchRoutersFromChain_update_no_nil
    cfg accounter node fuel open routers err open' :
  fetchRoutersFromChain_update cfg accounter node fuel open
  = (Some (routers, err), open') →
  Forall is_Some routers.
Proof.
  unfold fetchRoutersFromChain_update.
  destruct (dialRPCNode cfg node open) as [[client|e] open1].
  - destruct (HeaderByNumber node) as [head|];
      [|intros [= <- _ _]; constructor].
    destruct (big_Uint64 head <? Polygon_Confirmations cfg);
      [intros [= <- _ _]; constructor|].
    destruct (NewRouterRegistryCaller node); cbn [negb];
      [|intros [= <- _ _]; constructor].
    destruct (RouterCount node _) as [routerCount|];
      [|intros [= <- _ _]; constructor].
    intros [= Hrun _].
    by apply fetch_pages_no_nil in Hrun.
  - intros [= <- _ _]. constructor.
Qed.

Lemma fetchRoutersFromChain_update_no_nil_witness :
  Forall is_Some
    (map (λ r, Some (chain_Router sample.accounter r)) sample.registry_3).
Proof.
  apply (fetchRoutersFromChain_update_no_nil
           sample.cfg sample.accounter (serving 137 1000 sample.registry_3)
           2 0 _ None 0%nat).
  reflexivity.
Defined.

(** The loop reads the registry at the block it is given and nowhere
    else. *)
Lemma fetch_pages_pinned node node' callOpts routerCount accounter :
  (∀ start end_,
     RoutersPaged node callOpts start end_
     = RoutersPaged node' callOpts start end_) →
  ∀ fuel i routers,
    fetch_pages fuel node callOpts routerCount accounter i routers
    = fetch_pages fuel node' callOpts routerCount accounter i routers.
Proof.
  intros Hpages. induction fuel as [|fuel IH]; intros i routers; [done|].
  cbn [fetch_pages]. rewrite Hpages.
  destruct (wrap64 (i * pageSize) <? big_Int64 routerCount); [|done].
  destruct (RoutersPaged node' callOpts i (wrap64 (i + pageSize))); [|done].
  apply IH.
Qed.

(** An update reads the router registry at the confirmed block only, the
    head block minus the configured confirmations: two nodes that answer the
    dial alike and hold the same registry at that block give the same update,
    whatever their registries hold at other blocks. *)
Theorem fetchRoutersFromChain_update_reads_confirmed_block
    cfg accounter node node' head fuel open :
  DialContext node = DialContext node' →
  node_ChainID node = node_ChainID node' →
  HeaderByNumber node = inl head →
  HeaderByNumber node' = inl head →
  NewRouterRegistryCaller node = NewRouterRegistryCaller node' →
  RouterCount node (big_Uint64 head - Polygon_Confirmations cfg)
  = RouterCount node' (big_Uint64 head - Polygon_Confirmations cfg) →
  (∀ start end_,
     RoutersPaged node (big_Uint64 head - Polygon_Confirmations cfg)
       start end_
     = RoutersPaged node' (big_Uint64 head - Polygon_Confirmations cfg)
         start end_) →
  fetchRoutersFromChain_update cfg accounter node fuel open
  = fetchRoutersFromChain_update cfg accounter node' fuel open.
Proof.
  intros Hdial Hchain Hhead Hhead' Hbind Hcount Hpages.
  unfold fetchRoutersFromChain_update, dialRPCNode.
  rewrite Hdial, Hchain, Hhead, Hhead', Hbind, Hcount.
  destruct (DialContext node'); cbn [negb]; [|reflexivity].
  destruct (node_ChainID node') as [chainID|]; [|reflexivity].
  destruct (decide (big_Uint64 chainID ≠ Polygon_ChainID cfg));
    [reflexivity|].
  destruct (big_Uint64 head <? Polygon_Confirmations cfg); [reflexivity|].
  destruct (NewRouterRegistryCaller node'); cbn [negb]; [|reflexivity].
  destruct (RouterCount node' _) as [routerCount|]; [|reflexivity].
  by rewrite (fetch_pages_pinned node node' _ routerCount accounter Hpages).
Qed.

(** A node that holds [registry_3] at block 872 and an empty registry at
    every other block. *)
Lemma fetchRoutersFromChain_update_reads_confirmed_block_witness :
  fetchRoutersFromChain_update sample.cfg sample.accounter
    (serving 137 1000 sample.registry_3) 2 0
  = fetchRoutersFromChain_update sample.cfg sample.accounter
      {| DialContext := true;
         node_ChainID := inl 137;
         HeaderByNumber := inl 1000;
         NewRouterRegistryCaller := true;
         RouterCount := λ block,
           if decide (block = 872) then inl 3 else inl 0;
         RoutersPaged := λ block start end_,
           if decide (block = 872)
           then inl (registry_RoutersPaged sample.registry_3 start end_)
           else inl [] |} 2 0.
Proof.
  apply (fetchRoutersFromChain_update_reads_confirmed_block
           sample.cfg sample.accounter _ _ 1000 2 0);
    reflexivity.
Defined.

(** With a router count below 2^62 the loop comes to an end, whatever the
    node answers: after at most one request per 2500 routers counted. *)
Lemma fetch_pages_ends node callOpts routerCount accounter :
  0 ≤ routerCount < 2 ^ 62 →
  ∀ fuel k routers,
    0 ≤ k →
    2500 * k < routerCount + 2500 →
    (routerCount + 2499) / 2500 - k < Z.of_nat fuel →
    is_Some (fetch_pages fuel node callOpts routerCount accounter (50 * k)
               routers).
Proof.
  intros Hcount.
  assert (Hdiv : 2500 * ((routerCount + 2499) / 2500) ≤ routerCount + 2499
                 < 2500 * ((routerCount + 2499) / 2500) + 2500).
  { pose proof (Z.div_mod (routerCount + 2499) 2500).
    pose proof (Z.mod_pos_bound (routerCount + 2499) 2500). lia. }
  induction fuel as [|fuel IH]; intros k routers Hk0 Hk Hfuel; [lia|].
  cbn [fetch_pages]. unfold pageSize.
  rewrite big_Int64_small by lia.
  rewrite !wrap64_small by lia.
  destruct (Z.ltb_spec (50 * k * 50) routerCount) as [Hlt|Hge]; [|by eexists].
  destruct (RoutersPaged node callOpts (50 * k) (50 * k + 50)); [|by eexists].
  replace (50 * k + 50) with (50 * (k + 1)) by lia.
  apply IH; lia.
Qed.

(** The update comes to an end with [fuel] above a 2500th of the router
    count, whatever the node answers. *)
Theorem fetchRoutersFromChain_update_ends cfg accounter node fuel open :
  (∀ block routerCount,
     RouterCount node block = inl routerCount →
     0 ≤ routerCount < 2 ^ 62
     ∧ (routerCount + 2499) / 2500 < Z.of_nat fuel) →
  is_Some (fst (fetchRoutersFromChain_update cfg accounter node fuel open)).
Proof.
  intros Hcount. unfold fetchRoutersFromChain_update.
  destruct (dialRPCNode cfg node open) as [[client|err] open1];
    [|by eexists].
  cbn [fst].
  destruct (HeaderByNumber node) as [head|]; [|by eexists].
  destruct (big_Uint64 head <? Polygon_Confirmations cfg); [by eexists|].
  destruct (NewRouterRegistryCaller node); cbn [negb]; [|by eexists].
  destruct (RouterCount node _) as [routerCount|] eqn:Hrc; [|by eexists].
  destruct (Hcount _ _ Hrc) as [Hrange Hfuel].
  apply (fetch_pages_ends node _ routerCount accounter Hrange fuel 0 []);
    lia.
Qed.

Lemma fetchRoutersFromChain_update_ends_witness :
  is_Some (fst (fetchRoutersFromChain_update sample.cfg sample.accounter
                  sample.failing_second_page 3 0)).
Proof.
  apply (fetchRoutersFromChain_update_ends
           sample.cfg sample.accounter sample.failing_second_page 3 0).
  intros block routerCount [= <-]. vm_compute. repeat split; discriminate.
Defined.


End ChainUpdate.

(** ** The value of a NetID *)

Section NetIDValue.
Import forwarder.

Lemma to_byte_mod (v : Z) : to_byte v = v mod 256.
Proof.
  unfold to_byte. change 255 with (Z.ones 8).
  rewrite Z.land_ones by lia. reflexivity.
Qed.

Lemma to_uint32_big_Uint64 (v : Z) :
  to_uint32 (big_Uint64 v) = Z.abs v mod 2 ^ 32.
Proof.
  unfold to_uint32, big_Uint64.
  rewrite ones_64, ones_32, !Z.land_ones by lia.
  generalize (Z.abs v). intros x.
  change (2 ^ 64) with 18446744073709551616.
  change (2 ^ 32) with 4294967296.
  Z.div_mod_to_equations. lia.
Qed.

Lemma chain_NetID_bytes (id : Z) :
  chain_NetID id
  = [to_byte (Z.shiftr (to_uint32 (big_Uint64 id)) 16);
     to_byte (Z.shiftr (to_uint32 (big_Uint64 id)) 8);
     to_byte (to_uint32 (big_Uint64 id))].
Proof. reflexivity. Qed.

Lemma snapshot_NetID_bytes (id : Z) :
  snapshot_NetID id
  = [to_byte id; to_byte (Z.shiftr id 8); to_byte (Z.shiftr id 16)].
Proof. reflexivity. Qed.

(** The NetID that the registry source makes of a network id holds the low
    24 bits of the id, most significant byte first; what the id has above
    them is dropped. *)
Theorem chain_NetID_value (id : Z) :
  ∃ a b c,
    chain_NetID id = [a; b; c]
    ∧ is_byte a ∧ is_byte b ∧ is_byte c
    ∧ a * 65536 + b * 256 + c = Z.abs id mod 2 ^ 24.
Proof.
  rewrite chain_NetID_bytes, to_uint32_big_Uint64. unfold is_byte.
  do 3 eexists. split; [reflexivity|].
  rewrite !to_byte_mod, !Z.shiftr_div_pow2 by lia.
  generalize (Z.abs id). intros v.
  change (2 ^ 32) with 4294967296. change (2 ^ 24) with 16777216.
  change (2 ^ 16) with 65536. change (2 ^ 8) with 256.
  Z.div_mod_to_equations. lia.
Qed.

(** The NetID that the snapshot source makes of a network id holds the low
    24 bits of the id, least significant byte first. *)
Theorem snapshot_NetID_value (id : Z) :
  ∃ a b c,
    snapshot_NetID id = [a; b; c]
    ∧ is_byte a ∧ is_byte b ∧ is_byte c
    ∧ a + b * 256 + c * 65536 = id mod 2 ^ 24.
Proof.
  rewrite snapshot_NetID_bytes. unfold is_byte.
  do 3 eexists. split; [reflexivity|].
  rewrite !to_byte_mod, !Z.shiftr_div_pow2 by lia.
  change (2 ^ 24) with 16777216.
  change (2 ^ 16) with 65536. change (2 ^ 8) with 256.
  Z.div_mod_to_equations. lia.
Qed.

End NetIDValue.

(** ** Hexadecimal ids *)

Section Hex.
Import forwarder.

(** Strings, two characters at a time. *)
Lemma string_pair_ind (P : string → Prop) :
  P EmptyString →
  (∀ c, P (String c EmptyString)) →
  (∀ c d s, P s → P (String c (String d s))) →
  ∀ s, P s.
Proof.
  intros Hnil Hone Hpair s.
  cut (P s ∧ ∀ c, P (String c s)); [by intros [? _]|].
  induction s as [|d s [IH1 IH2]].
  - split; [exact Hnil|exact Hone].
  - split; [apply IH2|]. intros c. by apply Hpair.
Qed.

Lemma fromHexChar_nibble c n : fromHexChar c = Some n → 0 ≤ n < 16.
Proof.
  unfold fromHexChar.
  generalize (Z.of_N (Ascii.N_of_ascii c)). intros z.
  destruct (Z.leb_spec 48 z), (Z.leb_spec z 57); simpl;
    try (intros [= <-]; lia);
    destruct (Z.leb_spec 97 z), (Z.leb_spec z 102); simpl;
    try (intros [= <-]; lia);
    destruct (Z.leb_spec 65 z), (Z.leb_spec z 70); simpl;
    try (intros [= <-]; lia); done.
Qed.

Ltac nibble a :=
  let H := fresh in
  assert (H : a = 0 ∨ a = 1 ∨ a = 2 ∨ a = 3 ∨ a = 4 ∨ a = 5 ∨ a = 6 ∨ a = 7
              ∨ a = 8 ∨ a = 9 ∨ a = 10 ∨ a = 11 ∨ a = 12 ∨ a = 13
              ∨ a = 14 ∨ a = 15) by lia;
  repeat (destruct H as [->|H]); [..|subst a].

Lemma nibbles_byte a b :
  0 ≤ a < 16 → 0 ≤ b < 16 → Z.lor (Z.shiftl a 4) b = 16 * a + b.
Proof. intros Ha Hb. nibble a; nibble b; reflexivity. Qed.

Lemma hexDigit_value n : 0 ≤ n < 16 → fromHexChar (hexDigit n) = Some n.
Proof. intros Hn. nibble n; reflexivity. Qed.

(** A decoded id has one byte for every two characters. *)
Theorem hex_DecodeString_bytes s bytes :
  hex_DecodeString s = inl bytes →
  String.length s = (2 * length bytes)%nat ∧ Forall is_byte bytes.
Proof.
  revert bytes. induction s as [|c|c d s IH] using string_pair_ind;
    intros bytes Hdec.
  - injection Hdec as <-. split; [reflexivity|constructor].
  - simpl in Hdec. by destruct (fromHexChar c).
  - cbn [hex_DecodeString] in Hdec.
    destruct (fromHexChar c) as [a|] eqn:Ha; [|done].
    destruct (fromHexChar d) as [b|] eqn:Hb; [|done].
    destruct (hex_DecodeString s) as [rest|]; [|done].
    injection Hdec as <-. destruct (IH rest eq_refl) as [Hlen Hrange].
    apply fromHexChar_nibble in Ha, Hb.
    split; [simpl; lia|]. constructor; [|exact Hrange].
    unfold is_byte. rewrite nibbles_byte by done. lia.
Qed.

Lemma hex_DecodeString_bytes_witness :
  String.length "0a1B" = (2 * length [10; 27])%nat ∧ Forall is_byte [10; 27].
Proof.
  apply (hex_DecodeString_bytes "0a1B" [10; 27]). reflexivity.
Defined.

(** An id decodes exactly when it has an even number of characters, all of
    them hexadecimal digits: any other id, an id with a prefix such as 0x
    among them, is an error. *)
Theorem hex_DecodeString_succeeds_iff s :
  (∃ bytes, hex_DecodeString s = inl bytes)
  ↔ Nat.Even (String.length s)
    ∧ Forall (λ c, is_Some (fromHexChar c)) (String.list_ascii_of_string s).
Proof.
  induction s as [|c|c d s IH] using string_pair_ind.
  - split; [|by exists []].
    intros _. split; [by exists 0%nat|constructor].
  - split.
    + intros [bytes Hdec]. simpl in Hdec. by destruct (fromHexChar c).
    + intros [[n Hn] _]. simpl in Hn. lia.
  - cbn [hex_DecodeString String.length String.list_ascii_of_string].
    split.
    + intros [bytes Hdec].
      destruct (fromHexChar c) as [a|] eqn:Ha; [|done].
      destruct (fromHexChar d) as [b|] eqn:Hb; [|done].
      destruct (hex_DecodeString s) as [rest|]; [|done].
      destruct IH as [[[n Hn] Hall] _]; [by exists rest|].
      split; [exists (S n); lia|].
      constructor; [by rewrite Ha|]. constructor; [by rewrite Hb|done].
    + intros [[n Hn] Hall].
      apply Forall_cons in Hall as [[a Ha] Hall].
      apply Forall_cons in Hall as [[b Hb] Hall].
      rewrite Ha, Hb.
      destruct IH as [_ [rest ->]]; [|by eexists].
      split; [|done]. exists (n - 1)%nat. lia.
Qed.

(** One encoded byte in front of a string decodes to that byte in front of
    what the string decodes to. *)
Lemma hex_byte_round_trip v rest :
  is_byte v →
  hex_DecodeString (hex_EncodeToString (v :: rest))
  = match hex_DecodeString (hex_EncodeToString rest) with
    | inl bytes => inl (v :: bytes)
    | inr e => inr e
    end.
Proof.
  intros Hv. cbn [hex_EncodeToString hex_DecodeString]. unfold is_byte in Hv.
  assert (Hhi : 0 ≤ Z.shiftr v 4 < 16).
  { rewrite Z.shiftr_div_pow2 by lia. change (2 ^ 4) with 16.
    Z.div_mod_to_equations. lia. }
  assert (Hlo : 0 ≤ Z.land v 15 < 16).
  { change 15 with (Z.ones 4). rewrite Z.land_ones by lia.
    apply Z.mod_pos_bound. lia. }
  rewrite !hexDigit_value by done.
  destruct (hex_DecodeString (hex_EncodeToString rest)); [|reflexivity].
  rewrite nibbles_byte by done. do 2 f_equal.
  rewrite Z.shiftr_div_pow2 by lia.
  change 15 with (Z.ones 4). rewrite Z.land_ones by lia.
  change (2 ^ 4) with 16. Z.div_mod_to_equations. lia.
Qed.

(** The string form of an identifier decodes to the identifier. *)
Lemma EUI64_String_decodes (e : list Z) :
  Forall is_byte e → hex_DecodeString (EUI64_String e) = inl e.
Proof.
  unfold EUI64_String. induction 1 as [|v rest Hv _ IH]; [reflexivity|].
  rewrite hex_byte_round_trip by exact Hv. rewrite IH. reflexivity.
Qed.

(** Encoding bytes and decoding the string gives the bytes back. *)
Theorem hex_DecodeString_EncodeToString bytes :
  Forall is_byte bytes →
  hex_DecodeString (hex_EncodeToString bytes) = inl bytes.
Proof.
  intros Hbytes. induction bytes as [|v rest IH]; [reflexivity|].
  apply Forall_cons in Hbytes as [Hv Hrest].
  rewrite hex_byte_round_trip by exact Hv.
  rewrite (IH Hrest). reflexivity.
Qed.

Lemma hex_DecodeString_EncodeToString_witness :
  hex_DecodeString (hex_EncodeToString [0; 9; 171; 255])
  = inl [0; 9; 171; 255].
Proof.
  apply (hex_DecodeString_EncodeToString [0; 9; 171; 255]).
  repeat constructor; vm_compute; discriminate.
Defined.

End Hex.

(** ** Copies into fixed-size identifiers *)

Section Copies.
Import gateway forwarder.

Lemma copy_bytes_lookup n src i :
  (i < n)%nat → copy_bytes n src !! i = Some (default 0 (src !! i)).
Proof.
  intros Hi. unfold copy_bytes.
  destruct (decide (i < length src)%nat) as [Hlt|Hge].
  - rewrite lookup_app_l by (rewrite length_take; lia).
    rewrite lookup_take_lt by lia.
    destruct (lookup_lt_is_Some_2 src i Hlt) as [b ->]. reflexivity.
  - rewrite lookup_app_r by (rewrite length_take; lia).
    rewrite length_take, (lookup_ge_None_2 src i) by lia.
    apply lookup_replicate_2. lia.
Qed.

(** [GatewayIDBytesToLoraEUID] takes a slice of any length: the result has
    eight bytes, those of the slice as far as it goes and zero beyond its
    end; what the slice has beyond its eighth byte is dropped. *)
Theorem GatewayIDBytesToLoraEUID_bytes (id : list Z) :
  length (GatewayIDBytesToLoraEUID id) = 8%nat
  ∧ ∀ i, (i < 8)%nat →
      GatewayIDBytesToLoraEUID id !! i = Some (default 0 (id !! i)).
Proof.
  split; [apply length_copy_bytes|].
  intros i Hi. by apply copy_bytes_lookup.
Qed.

(** The registry id of a gateway has 32 bytes whatever the length of its
    key, and two gateways have the same registry id exactly when their keys
    agree on the first 32 bytes, a missing byte counting as zero. *)
Theorem ID_equal_iff (gw1 gw2 : Gateway) :
  length (ID gw1) = 32%nat
  ∧ (ID gw1 = ID gw2
     ↔ ∀ i, (i < 32)%nat →
         default 0 (CompressedPublicKeyBytes gw1 !! i)
         = default 0 (CompressedPublicKeyBytes gw2 !! i)).
Proof.
  split; [apply length_copy_bytes|]. unfold ID. split.
  - intros Heq i Hi.
    pose proof (copy_bytes_lookup 32 (CompressedPublicKeyBytes gw1) i Hi) as H1.
    pose proof (copy_bytes_lookup 32 (CompressedPublicKeyBytes gw2) i Hi) as H2.
    rewrite Heq in H1. congruence.
  - intros Heq. apply list_eq. intros i.
    destruct (decide (i < 32)%nat) as [Hi|Hi].
    + rewrite !copy_bytes_lookup by done. by rewrite Heq.
    + rewrite !lookup_ge_None_2; [done|rewrite length_copy_bytes; lia..].
Qed.

End Copies.

(** ** The update from the snapshot, on every path *)

Section SnapshotUpdate.
Import forwarder.

Lemma convert_snapshot_Forall (P : option Router → Prop) accounter rs :
  (∀ r, r ∈ rs → P (snapshot_slot accounter r) ∨ snapshot_slot accounter r = None) →
  ∀ i routers,
    Forall P routers →
    Forall P (convert_snapshot accounter i rs routers).
Proof.
  induction rs as [|r rest IH]; intros Hnew i routers Hacc; [exact Hacc|].
  cbn [convert_snapshot].
  assert (Hrest : ∀ r0, r0 ∈ rest →
            P (snapshot_slot accounter r0) ∨ snapshot_slot accounter r0 = None).
  { intros r0 Hr0. apply Hnew. by right. }
  pose proof (Hnew r (list_elem_of_here r rest)) as Hr.
  unfold snapshot_slot in Hr.
  destruct (hex_DecodeString (sr_ID r)) as [rID|].
  - apply IH; [exact Hrest|]. destruct Hr as [Hr|Hr]; [|done].
    destruct (decide (i < length routers)%nat).
    + by apply Forall_insert.
    + by rewrite list_insert_ge by lia.
  - by apply IH.
Qed.


(** Every router that the update returns has an id of 32 bytes, whatever
    the length of the id in the snapshot, is not a default router, carries
    the accounter of the source, and has one NetID of three bytes for each
    network id of its entry. *)
Theorem fetchRoutersFromThingsIXAPI_update_routers
    cfg accounter resp :
  Forall (λ slot, ∀ router, slot = Some router →
            length (Router_ID router) = 32%nat
            ∧ Router_Default router = false
            ∧ Router_accounter router = accounter
            ∧ Forall (λ netid, length netid = 3%nat) (Router_NetIDs router))
    (fst (fetchRoutersFromThingsIXAPI_update cfg accounter resp)).
Proof.
  destruct resp as [err|[snapshot|err]]; simpl; [constructor| |constructor].
  destruct (decide (snapshot_ChainID snapshot ≠ Polygon_ChainID cfg));
    [constructor|]. simpl.
  apply convert_snapshot_Forall.
  - intros r _. unfold snapshot_slot.
    destruct (hex_DecodeString (sr_ID r)) as [rID|]; [left|by right].
    intros router [= <-]. simpl.
    split; [apply length_copy_bytes|]. do 2 (split; [reflexivity|]).
    apply Forall_forall. intros netid Hnetid.
    apply list_elem_of_In, in_map_iff in Hnetid as (id & <- & _). reflexivity.
  - apply Forall_forall. intros slot Hslot.
    apply elem_of_replicate in Hslot as [-> _]. done.
Qed.

End SnapshotUpdate.

(** ** The trust tables of any inventory *)

Section TrustTablesAnyInventory.
Import gateway forwarder.

Section Entered.
Variable verdict : Gateway → option Gateway.
Variable store : list Gateway.
Hypothesis verdict_ids : ∀ gw gw',
  verdict gw = Some gw' →
  LocalGatewayID gw' = LocalGatewayID gw
  ∧ NetworkGatewayID gw' = NetworkGatewayID gw.

Lemma entered_skip n st gw :
  store !! n = Some gw → verdict gw = None →
  entered verdict store n st → entered verdict store (S n) st.
Proof.
  intros Hn Hverdict Hst p gw0 gw0' Hp Hp0 Hv.
  destruct (decide (p = n)) as [->|Hne]; [congruence|].
  apply (Hst p gw0 gw0'); [lia|done|done].
Qed.

Lemma entered_trusted n st gw gw' :
  store !! n = Some gw → verdict gw = Some gw' →
  entered verdict store n st →
  entered verdict store (S n)
    {| gateways := <[n := gw']> (gateways st);
       trustedGatewaysByLocalID :=
         <[LocalGatewayID gw' := n]> (trustedGatewaysByLocalID st);
       trustedGatewaysByNetworkID :=
         <[NetworkGatewayID gw' := n]> (trustedGatewaysByNetworkID st) |}.
Proof.
  intros Hn Hverdict Hst p gw0 gw0' Hp Hp0 Hv.
  destruct (verdict_ids gw gw' Hverdict) as [HidL HidN].
  cbn [trustedGatewaysByLocalID trustedGatewaysByNetworkID].
  assert (Hsame : p = n → gw0 = gw) by (intros ->; congruence).
  split.
  - destruct (decide (LocalGatewayID gw' = LocalGatewayID gw0)) as [Heq|Hne].
    + exists n. rewrite <- Heq, lookup_insert_eq. split; [done|lia].
    + rewrite lookup_insert_ne by done.
      destruct (decide (p = n)) as [Hpn|Hpn];
        [rewrite (Hsame Hpn) in Hne; congruence|].
      apply (Hst p gw0 gw0'); [lia|done|done].
  - destruct (decide (NetworkGatewayID gw' = NetworkGatewayID gw0))
      as [Heq|Hne].
    + exists n. rewrite <- Heq, lookup_insert_eq. split; [done|lia].
    + rewrite lookup_insert_ne by done.
      destruct (decide (p = n)) as [Hpn|Hpn];
        [rewrite (Hsame Hpn) in Hne; congruence|].
      apply (Hst p gw0 gw0'); [lia|done|done].
Qed.

Lemma range_gateways_entered n :
  (n ≤ length store)%nat →
  ∃ st, range_gateways (verdict_body verdict) (seq 0 n) (empty_tables store)
        = Returned st
        ∧ visited verdict store n st
        ∧ entered verdict store n st.
Proof.
  induction n as [|n IH]; intros Hn.
  - exists (empty_tables store). split; [reflexivity|].
    split; [apply visited_none|]. intros p gw gw' Hp. lia.
  - destruct IH as (st & Hrun & Hst & Hent); [lia|].
    destruct (lookup_lt_is_Some_2 store n) as [gw Hgw]; [lia|].
    rewrite seq_S, range_gateways_app, Hrun. simpl.
    unfold verdict_body.
    assert (gateways st !! n = Some gw) as ->.
    { destruct Hst as (_ & Hheap & _). rewrite Hheap.
      destruct (decide (n < n)%nat); [lia|exact Hgw]. }
    destruct (verdict gw) as [gw'|] eqn:Hverdict.
    + eexists. split; [reflexivity|]. split.
      * by apply (visited_trusted verdict store verdict_ids n st gw).
      * by apply entered_trusted with gw.
    + exists st. split; [reflexivity|]. split.
      * by apply visited_skip with gw.
      * by apply entered_skip with gw.
Qed.

(** After the whole inventory, a map holds under an id the last trusted
    gateway with that id. *)
Lemma visited_entered_last st :
  visited verdict store (length store) st →
  entered verdict store (length store) st →
  (∀ k q, trustedGatewaysByLocalID st !! k = Some q
          ↔ last_trusted verdict LocalGatewayID store k q)
  ∧ (∀ k q, trustedGatewaysByNetworkID st !! k = Some q
            ↔ last_trusted verdict NetworkGatewayID store k q).
Proof.
  intros (_ & _ & HL & HN & _) Hent. split; intros k q; split.
  - intros Hk. destruct (HL k q Hk) as (_ & gw & gw' & Hq & Hv & Hid).
    split; [by exists gw, gw'|].
    intros p gw0 gw0' Hp Hv0 Hid0.
    destruct (Hent p gw0 gw0' (lookup_lt_Some _ _ _ Hp) Hp Hv0)
      as [(q' & Hq' & Hle) _].
    rewrite Hid0, Hk in Hq'. by injection Hq' as <-.
  - intros [(gw & gw' & Hq & Hv & Hid) Hmax].
    destruct (Hent q gw gw' (lookup_lt_Some _ _ _ Hq) Hq Hv)
      as [(q' & Hq' & Hle) _].
    rewrite Hid in Hq'.
    destruct (HL k q' Hq') as (_ & gw1 & gw1' & Hq1 & Hv1 & Hid1).
    pose proof (Hmax q' gw1 gw1' Hq1 Hv1 Hid1).
    by replace q with q' by lia.
  - intros Hk. destruct (HN k q Hk) as (_ & gw & gw' & Hq & Hv & Hid).
    split; [by exists gw, gw'|].
    intros p gw0 gw0' Hp Hv0 Hid0.
    destruct (Hent p gw0 gw0' (lookup_lt_Some _ _ _ Hp) Hp Hv0)
      as [_ (q' & Hq' & Hle)].
    rewrite Hid0, Hk in Hq'. by injection Hq' as <-.
  - intros [(gw & gw' & Hq & Hv & Hid) Hmax].
    destruct (Hent q gw gw' (lookup_lt_Some _ _ _ Hq) Hq Hv)
      as [_ (q' & Hq' & Hle)].
    rewrite Hid in Hq'.
    destruct (HN k q' Hq') as (_ & gw1 & gw1' & Hq1 & Hv1 & Hid1).
    pose proof (Hmax q' gw1 gw1' Hq1 Hv1 Hid1).
    by replace q with q' by lia.
Qed.

End Entered.

Lemma open_policy_entered cfg node store :
  Gateways_RegistryAddress cfg = None →
  ∃ st, onboardedAndRegisteredGateways cfg node store = Returned (st, None)
        ∧ visited Some store (length store) st
        ∧ entered Some store (length store) st.
Proof.
  intros Hopen. unfold onboardedAndRegisteredGateways. rewrite Hopen.
  rewrite bool_decide_eq_false_2 by (intros Hne; by apply Hne).
  cbn [negb].
  rewrite (range_gateways_ext accept_all_body (verdict_body Some))
    by apply accept_all_body_verdict.
  destruct (range_gateways_entered Some store Some_ids (length store))
    as (st & Hrun & Hst); [lia|].
  unfold Store_Gateways. rewrite Hrun. by exists st.
Qed.

Lemma registry_policy_entered cfg node store :
  Gateways_RegistryAddress cfg ≠ None →
  ethclient_Dial node = true →
  NewGatewayRegistry node = true →
  ∃ st, onboardedAndRegisteredGateways cfg node store = Returned (st, None)
        ∧ visited (registry_verdict node) store (length store) st
        ∧ entered (registry_verdict node) store (length store) st.
Proof.
  intros Hreg Hdial Hbind. unfold onboardedAndRegisteredGateways.
  rewrite bool_decide_eq_true_2 by exact Hreg. cbn [negb].
  unfold acceptOnlyOnboardedAndRegistryGateways.
  rewrite Hdial, Hbind. cbn [negb].
  rewrite (range_gateways_ext (registry_body node)
             (verdict_body (registry_verdict node)))
    by apply registry_body_verdict.
  destruct (range_gateways_entered (registry_verdict node) store
              (registry_verdict_ids node) (length store))
    as (st & Hrun & Hst); [lia|].
  unfold Store_Gateways. rewrite Hrun. by exists st.
Qed.

Lemma registry_verdict_Some node gw gw' :
  registry_verdict node gw = Some gw' →
  ∃ rgw, registry_Gateways node (ID gw) = inl rgw
         ∧ rgw_AntennaGain rgw ≠ 0
         ∧ gw' = set_Owner gw (rgw_Owner rgw).
Proof.
  unfold registry_verdict. intros Hv.
  destruct (registry_Gateways node (ID gw)) as [rgw|]; [|done].
  destruct (decide (rgw_AntennaGain rgw ≠ 0)); [|done].
  injection Hv as <-. by exists rgw.
Qed.

(** With no registry configured the build returns for every inventory,
    without an error and without a change to a gateway, and each map holds
    under an id the last gateway of the inventory with that id: a gateway
    that shares its id with a later one is replaced by it. *)
Theorem open_policy_last_gateway_wins cfg node store :
  Gateways_RegistryAddress cfg = None →
  ∃ st,
    onboardedAndRegisteredGateways cfg node store = Returned (st, None)
    ∧ gateways st = store
    ∧ (∀ k q, trustedGatewaysByLocalID st !! k = Some q
              ↔ last_trusted Some LocalGatewayID store k q)
    ∧ (∀ k q, trustedGatewaysByNetworkID st !! k = Some q
              ↔ last_trusted Some NetworkGatewayID store k q).
Proof.
  intros Hopen.
  destruct (open_policy_entered cfg node store Hopen)
    as (st & Hrun & Hst & Hent).
  exists st. split; [exact Hrun|]. split.
  - apply list_eq. intros q. destruct (store !! q) as [gw|] eqn:Hq.
    + by rewrite (visited_heap Some store st q gw Hst Hq).
    + destruct Hst as (Hlen & _). apply lookup_ge_None.
      rewrite Hlen. by apply lookup_ge_None.
  - by apply visited_entered_last.
Qed.

Lemma open_policy_last_gateway_wins_witness :
  ∃ st,
    onboardedAndRegisteredGateways sample.cfg sample.registry_node
      sample.shared_local_id = Returned (st, None)
    ∧ gateways st = sample.shared_local_id
    ∧ (∀ k q, trustedGatewaysByLocalID st !! k = Some q
              ↔ last_trusted Some LocalGatewayID sample.shared_local_id k q)
    ∧ (∀ k q, trustedGatewaysByNetworkID st !! k = Some q
              ↔ last_trusted Some NetworkGatewayID sample.shared_local_id
                  k q).
Proof.
  apply (open_policy_last_gateway_wins
           sample.cfg sample.registry_node sample.shared_local_id).
  reflexivity.
Defined.

(** With a registry configured and a node that can be dialled, the build
    returns for every inventory, without an error, and each map holds under
    an id the last gateway with that id among those whose lookup succeeds
    with a non-zero antenna gain. *)
Theorem registry_policy_last_gateway_wins cfg node store :
  Gateways_RegistryAddress cfg ≠ None →
  ethclient_Dial node = true →
  NewGatewayRegistry node = true →
  ∃ st,
    onboardedAndRegisteredGateways cfg node store = Returned (st, None)
    ∧ (∀ k q, trustedGatewaysByLocalID st !! k = Some q
              ↔ last_trusted (registry_verdict node) LocalGatewayID store k q)
    ∧ (∀ k q, trustedGatewaysByNetworkID st !! k = Some q
              ↔ last_trusted (registry_verdict node) NetworkGatewayID store
                  k q).
Proof.
  intros Hreg Hdial Hbind.
  destruct (registry_policy_entered cfg node store Hreg Hdial Hbind)
    as (st & Hrun & Hst & Hent).
  exists st. split; [exact Hrun|]. by apply visited_entered_last.
Qed.

Lemma registry_policy_last_gateway_wins_witness :
  ∃ st,
    onboardedAndRegisteredGateways sample.cfg_registry sample.registry_node
      sample.shared_local_id_3 = Returned (st, None)
    ∧ (∀ k q, trustedGatewaysByLocalID st !! k = Some q
              ↔ last_trusted (registry_verdict sample.registry_node)
                  LocalGatewayID sample.shared_local_id_3 k q)
    ∧ (∀ k q, trustedGatewaysByNetworkID st !! k = Some q
              ↔ last_trusted (registry_verdict sample.registry_node)
                  NetworkGatewayID sample.shared_local_id_3 k q).
Proof.
  apply (registry_policy_last_gateway_wins
           sample.cfg_registry sample.registry_node sample.shared_local_id_3).
  - discriminate.
  - reflexivity.
  - reflexivity.
Defined.

(** Under the registry policy a map never holds a gateway that the registry
    does not vouch for: whatever is found in either map is a gateway of the
    inventory whose lookup succeeded with a non-zero antenna gain, and it has
    the owner that the registry reported, all else as in the inventory. *)
Theorem registry_policy_trusts_only_registered cfg node store :
  Gateways_RegistryAddress cfg ≠ None →
  ethclient_Dial node = true →
  NewGatewayRegistry node = true →
  ∃ st,
    onboardedAndRegisteredGateways cfg node store = Returned (st, None)
    ∧ ∀ k p,
        trustedGatewaysByLocalID st !! k = Some p
        ∨ trustedGatewaysByNetworkID st !! k = Some p →
        ∃ gw rgw,
          store !! p = Some gw
          ∧ registry_Gateways node (ID gw) = inl rgw
          ∧ rgw_AntennaGain rgw ≠ 0
          ∧ gateways st !! p = Some (set_Owner gw (rgw_Owner rgw)).
Proof.
  intros Hreg Hdial Hbind.
  destruct (registry_policy_visited cfg node store Hreg Hdial Hbind)
    as (st & Hrun & Hst).
  exists st. split; [exact Hrun|]. intros k p Hk.
  assert (∃ gw gw', store !! p = Some gw
                    ∧ registry_verdict node gw = Some gw')
    as (gw & gw' & Hp & Hv).
  { destruct Hst as (_ & _ & HL & HN & _). destruct Hk as [Hk|Hk].
    - destruct (HL k p Hk) as (_ & gw & gw' & Hp & Hv & _). by exists gw, gw'.
    - destruct (HN k p Hk) as (_ & gw & gw' & Hp & Hv & _). by exists gw, gw'. }
  pose proof (visited_heap _ store st p gw Hst Hp) as Hheap.
  rewrite Hv in Hheap.
  destruct (registry_verdict_Some node gw gw' Hv) as (rgw & Hl & Hg & ->).
  by exists gw, rgw.
Qed.

Lemma registry_policy_trusts_only_registered_witness :
  ∃ st,
    onboardedAndRegisteredGateways sample.cfg_registry sample.registry_node
      sample.three_gateways = Returned (st, None)
    ∧ ∀ k p,
        trustedGatewaysByLocalID st !! k = Some p
        ∨ trustedGatewaysByNetworkID st !! k = Some p →
        ∃ gw rgw,
          sample.three_gateways !! p = Some gw
          ∧ registry_Gateways sample.registry_node (ID gw) = inl rgw
          ∧ rgw_AntennaGain rgw ≠ 0
          ∧ gateways st !! p = Some (set_Owner gw (rgw_Owner rgw)).
Proof.
  apply (registry_policy_trusts_only_registered
           sample.cfg_registry sample.registry_node sample.three_gateways).
  - discriminate.
  - reflexivity.
  - reflexivity.
Defined.

(** Under the registry policy a gateway that the registry reports with an
    antenna gain of zero, or whose lookup fails, is in neither map and stays
    as it is in the inventory, owner included; this needs nothing of the
    other gateways. *)
Theorem registry_policy_excludes_zero_gain cfg node store p gw :
  Gateways_RegistryAddress cfg ≠ None →
  ethclient_Dial node = true →
  NewGatewayRegistry node = true →
  store !! p = Some gw →
  (∀ rgw, registry_Gateways node (ID gw) = inl rgw →
          rgw_AntennaGain rgw = 0) →
  ∃ st,
    onboardedAndRegisteredGateways cfg node store = Returned (st, None)
    ∧ in_no_map st p
    ∧ gateways st !! p = Some gw.
Proof.
  intros Hreg Hdial Hbind Hp Hzero.
  destruct (registry_policy_visited cfg node store Hreg Hdial Hbind)
    as (st & Hrun & Hst).
  assert (Hv : registry_verdict node gw = None).
  { unfold registry_verdict.
    destruct (registry_Gateways node (ID gw)) as [rgw|]; [|done].
    destruct (decide (rgw_AntennaGain rgw ≠ 0)) as [Hne|]; [|done].
    by destruct (Hne (Hzero rgw eq_refl)). }
  exists st. split; [exact Hrun|]. split.
  - by apply (visited_in_no_map (registry_verdict node) store st p gw).
  - rewrite (visited_heap _ store st p gw Hst Hp). by rewrite Hv.
Qed.

Lemma registry_policy_excludes_zero_gain_witness :
  ∃ st,
    onboardedAndRegisteredGateways sample.cfg_registry
      sample.registry_node_zero_gain sample.three_gateways
    = Returned (st, None)
    ∧ in_no_map st 0
    ∧ gateways st !! 0%nat = Some (sample.gw 9 20).
Proof.
  apply (registry_policy_excludes_zero_gain
           sample.cfg_registry sample.registry_node_zero_gain
           sample.three_gateways 0%nat (sample.gw 9 20)).
  - discriminate.
  - reflexivity.
  - reflexivity.
  - reflexivity.
  - intros rgw [= <-]. reflexivity.
Defined.

End TrustTablesAnyInventory.

(** ** Identity translation of frames *)

Section AddressTranslation.
Import gateway forwarder.
Context {F R : Type}.

(** The translation of an uplink frame panics exactly when the frame has no
    receive information.  It otherwise returns the frame without an error and
    with nothing changed but the gateway id, which becomes the hexadecimal
    encoding of the network id of the gateway: decoding it gives the network
    id back. *)
Theorem localUplinkFrameToNetwork_outcome
    (gw : Gateway) (frame : UplinkFrame F R) :
  Forall is_byte (NetworkGatewayID gw) →
  match localUplinkFrameToNetwork gw frame with
  | Panicked => RxInfo frame = None
  | Returned (frame', err) =>
      err = None
      ∧ uf_fields frame' = uf_fields frame
      ∧ ∃ rx rx',
          RxInfo frame = Some rx
          ∧ RxInfo frame' = Some rx'
          ∧ rx_fields rx' = rx_fields rx
          ∧ hex_DecodeString (rx_GatewayId rx') = inl (NetworkGatewayID gw)
  end.
Proof.
  intros Hbytes. unfold localUplinkFrameToNetwork.
  destruct (RxInfo frame) as [rx|]; [|reflexivity].
  do 2 (split; [reflexivity|]). eexists rx, _.
  do 3 (split; [reflexivity|]).
  by apply EUI64_String_decodes.
Qed.

(** For a gateway that is in both trust maps, the gateway id that the
    translation towards the network writes into an acknowledgement leads back
    to the gateway through the map by network id, and the one that the
    translation towards the gateway writes into a downlink frame leads back
    to it through the map by local id; the other fields stay as they are. *)
Theorem translated_ids_resolve (st : TrustState) (p : nat) (gw : Gateway)
    (txack : DownlinkTxAck F) (frame : DownlinkFrame R) :
  gateways st !! p = Some gw →
  in_both_maps st p →
  Forall is_byte (LocalGatewayID gw) →
  Forall is_byte (NetworkGatewayID gw) →
  (∃ id,
     hex_DecodeString
       (ack_GatewayId (fst (localDownlinkTxAckToNetwork gw txack))) = inl id
     ∧ trustedGatewaysByNetworkID st !! id = Some p)
  ∧ (∃ id,
       hex_DecodeString (df_GatewayId (networkDownlinkFrameToLocal gw frame))
       = inl id
       ∧ trustedGatewaysByLocalID st !! id = Some p)
  ∧ snd (localDownlinkTxAckToNetwork gw txack) = None
  ∧ ack_fields (fst (localDownlinkTxAckToNetwork gw txack)) = ack_fields txack
  ∧ df_fields (networkDownlinkFrameToLocal gw frame) = df_fields frame.
Proof.
  intros Hgw (gw0 & Hgw0 & HL & HN) HbL HbN.
  assert (gw0 = gw) as -> by congruence.
  split; [|split; [|done]].
  - exists (NetworkGatewayID gw). split; [|exact HN].
    by apply EUI64_String_decodes.
  - exists (LocalGatewayID gw). split; [|exact HL].
    by apply EUI64_String_decodes.
Qed.

End AddressTranslation.

Section AddressTranslationSamples.
Import gateway forwarder.

Lemma localUplinkFrameToNetwork_outcome_witness :
  match localUplinkFrameToNetwork (sample.gw 9 20) sample.uplink with
  | Panicked => RxInfo sample.uplink = None
  | Returned (frame', err) =>
      err = None
      ∧ uf_fields frame' = uf_fields sample.uplink
      ∧ ∃ rx rx',
          RxInfo sample.uplink = Some rx
          ∧ RxInfo frame' = Some rx'
          ∧ rx_fields rx' = rx_fields rx
          ∧ hex_DecodeString (rx_GatewayId rx')
            = inl (NetworkGatewayID (sample.gw 9 20))
  end.
Proof.
  apply (localUplinkFrameToNetwork_outcome (sample.gw 9 20) sample.uplink).
  repeat constructor; vm_compute; discriminate.
Defined.

Lemma translated_ids_resolve_witness :
  let st :=
    {| gateways := [sample.gw 9 20];
       trustedGatewaysByLocalID :=
         <[LocalGatewayID (sample.gw 9 20) := 0%nat]> ∅;
       trustedGatewaysByNetworkID :=
         <[NetworkGatewayID (sample.gw 9 20) := 0%nat]> ∅ |} in
  let txack := {| ack_GatewayId := "0000000000000009"; ack_fields := 7 |} in
  let frame := {| df_GatewayId := "0101010101010114"; df_fields := 7 |} in
  (∃ id,
     hex_DecodeString
       (ack_GatewayId (fst (localDownlinkTxAckToNetwork (sample.gw 9 20)
                              txack))) = inl id
     ∧ trustedGatewaysByNetworkID st !! id = Some 0%nat)
  ∧ (∃ id,
       hex_DecodeString
         (df_GatewayId (networkDownlinkFrameToLocal (sample.gw 9 20) frame))
       = inl id
       ∧ trustedGatewaysByLocalID st !! id = Some 0%nat)
  ∧ snd (localDownlinkTxAckToNetwork (sample.gw 9 20) txack) = None
  ∧ ack_fields (fst (localDownlinkTxAckToNetwork (sample.gw 9 20) txack))
    = ack_fields txack
  ∧ df_fields (networkDownlinkFrameToLocal (sample.gw 9 20) frame)
    = df_fields frame.
Proof.
  intros st txack frame.
  apply (translated_ids_resolve st 0 (sample.gw 9 20) txack frame).
  - reflexivity.
  - exists (sample.gw 9 20). split; [reflexivity|].
    split; apply lookup_insert_eq.
  - repeat constructor; vm_compute; discriminate.
  - repeat constructor; vm_compute; discriminate.
Defined.

End AddressTranslationSamples.

(** ** Reconstruction of the compressed key *)

Section KeyReconstruction.
Import gateway.
Variable sha256_Sum256 : list Z → vec Z 32.
Variable CompressPubkey : PublicKey → vec Z 33.
Variable FromECDSAPub : PublicKey → vec Z 65.

(** [CompressedPubKeyBytes] of a gateway made by [NewGateway] is the
    compressed public key of its key exactly when the parity byte of that
    key is 0x02; the 32 bytes after the first are those of the key in every
    case. *)
Theorem CompressedPubKeyBytes_correct_iff (localID : list Z)
    (priv : PrivateKey) :
  ∃ gw,
    NewGateway sha256_Sum256 CompressPubkey FromECDSAPub localID priv
    = (Some gw, None)
    ∧ drop 1 (CompressedPubKeyBytes gw)
      = drop 1 (vec_to_list (CompressPubkey (PrivateKey_PublicKey priv)))
    ∧ (CompressedPubKeyBytes gw
       = vec_to_list (CompressPubkey (PrivateKey_PublicKey priv))
       ↔ Vector.hd (CompressPubkey (PrivateKey_PublicKey priv)) = 2).
Proof.
  eexists. split; [reflexivity|].
  unfold CompressedPubKeyBytes. cbn [CompressedPublicKeyBytes].
  rewrite (compressed_key_split CompressPubkey (PrivateKey_PublicKey priv)).
  split; [reflexivity|]. split.
  - intros [= Heq]. by symmetry.
  - intros ->. reflexivity.
Qed.

End KeyReconstruction.

(** ** The outcome of a dial *)

Section DialOutcome.
Import forwarder.

(** [dialRPCNode] hands out a client exactly when the node can be dialled
    and reports the configured chain id, and then one more connection is
    open than before; in every other case it returns an error. *)
Theorem dialRPCNode_client_iff cfg node open :
  ((∃ client, fst (dialRPCNode cfg node open) = inl client)
   ↔ DialContext node = true
     ∧ ∃ chainID, node_ChainID node = inl chainID
                  ∧ big_Uint64 chainID = Polygon_ChainID cfg)
  ∧ (∀ client, fst (dialRPCNode cfg node open) = inl client →
       client = client_of (Polygon_Endpoint cfg)
       ∧ snd (dialRPCNode cfg node open) = S open).
Proof.
  unfold dialRPCNode.
  destruct (DialContext node); cbn [negb].
  - destruct (node_ChainID node) as [chainID|err].
    + destruct (decide (big_Uint64 chainID ≠ Polygon_ChainID cfg))
        as [Hne|Heq]; cbn [fst snd].
      * split; [|by intros client [=]]. split; [by intros [client [=]]|].
        intros [_ (c & [= <-] & Hc)]. done.
      * split; [|by intros client [= <-]]. split; [|by eexists].
        intros _. split; [done|]. exists chainID. split; [done|].
        by apply dec_stable.
    + cbn [fst snd]. split; [|by intros client [=]].
      split; [by intros [client [=]]|]. by intros [_ (c & [=] & _)].
  - cbn [fst snd]. split; [|by intros client [=]].
    split; [by intros [client [=]]|]. by intros [[=] _].
Qed.

End DialOutcome.
